(** * sk-pkg/logger: a shallow embedding of logger.go

    The package is a facade over go.uber.org/zap.  The repository code
    (the functional options, [New], [newFileCore], trace extraction and
    the [Manager] methods) is embedded function by function.  What it
    delegates to is modelled with the behaviour the facade relies on,
    each definition naming the library function it stands for:
    context values ([Module context]), strftime patterns and the
    rotation sink ([Module strftime], [rotatelogs_New]), zap's cores,
    loggers and atomic levels, and zap's JSON encoder ([Module json]).

    State is explicit: a [World] holds the level cells, the Manager
    structs on the heap, and what has been written to standard-out,
    standard-error and the log files.  Calls that may panic or exit
    return a [result]. *)

From Stdlib Require Import ZArith NArith String Ascii List Bool Lia.
From Stdlib Require Import Decimal DecimalString DecimalFacts DecimalPos DecimalZ.
From stdpp Require Import base option gmap strings list.
Import ListNotations.
Local Open Scope string_scope.
Local Open Scope Z_scope.

(** ** Results of Go calls that may panic or exit the process *)

Inductive result (A : Type) : Type :=
| Ret (a : A)            (* the call returned *)
| Panicked (msg : string) (* panic(msg) unwound the call *)
| Exited (code : Z).     (* os.Exit(code) *)
Arguments Ret {A} a.
Arguments Panicked {A} msg.
Arguments Exited {A} code.

Definition bind {A B} (r : result A) (k : A -> result B) : result B :=
  match r with
  | Ret a => k a
  | Panicked m => Panicked m
  | Exited c => Exited c
  end.

Notation "'do' x <- r ; k" := (bind r (fun x => k))
  (at level 10, x name, r at level 100, k at level 200).

(** ** Log levels: zapcore.Level is an int8; the constants are iota - 1 *)

Abbreviation Level := Z (only parsing).

Definition DebugLevel : Level := -1.
Definition InfoLevel : Level := 0.
Definition WarnLevel : Level := 1.
Definition ErrorLevel : Level := 2.
Definition DPanicLevel : Level := 3.
Definition PanicLevel : Level := 4.
Definition FatalLevel : Level := 5.

(** time.Duration is an int64 count of nanoseconds *)
Abbreviation Duration := Z (only parsing).
Definition Nanosecond : Duration := 1.
Definition Millisecond : Duration := 1000000 * Nanosecond.
Definition Second : Duration := 1000000000 * Nanosecond.
Definition Minute : Duration := 60 * Second.
Definition Hour : Duration := 60 * Minute.

(** ** zapcore.EncoderConfig, as far as logger.go sets it *)

Inductive LevelEncoder := CapitalLevelEncoder | LowercaseLevelEncoder.
Inductive TimeEncoder := ISO8601TimeEncoder | EpochTimeEncoder.
Inductive DurationEncoder := SecondsDurationEncoder | StringDurationEncoder.
Inductive CallerEncoder := ShortCallerEncoder | FullCallerEncoder.

Record EncoderConfig := {
  TimeKey : string;
  LevelKey : string;
  NameKey : string;
  MessageKey : string;
  CallerKey : string;
  StacktraceKey : string;
  LineEnding : string;
  EncodeLevel : LevelEncoder;
  EncodeTime : TimeEncoder;
  EncodeDuration : DurationEncoder;
  EncodeCaller : CallerEncoder
}.

Definition DefaultLineEnding : string := String (ascii_of_nat 10) EmptyString.

Definition DefaultEncoderConfig : EncoderConfig := {|
  TimeKey := "T";
  LevelKey := "L";
  NameKey := "N";
  MessageKey := "M";
  CallerKey := "C";
  StacktraceKey := "S";
  LineEnding := DefaultLineEnding;
  EncodeLevel := CapitalLevelEncoder;
  EncodeTime := ISO8601TimeEncoder;
  EncodeDuration := SecondsDurationEncoder;
  EncodeCaller := ShortCallerEncoder
|}.

(** ** Constants for default configuration *)

Definition defaultDriver : string := "stdout".
Definition defaultLevel : Level := InfoLevel.
Definition defaultCallerSkip : Z := 1.
Definition defaultStacktraceLevel : Level := DPanicLevel.
Definition TraceIDKey : string := "trace_id".

(** ** The option struct and the functional options *)

Record option_ := {
  driver : string;
  level : Level;
  logPath : string;
  encoderConfig : EncoderConfig;
  callerSkip : Z;
  maxAge : Duration;
  rotationTime : Duration;
  useColor : bool;
  stacktraceLevel : Level
}.

(** An [Option] is a Go function taking a pointer to the option struct:
    it updates the struct in place, or panics. *)
Definition Option := option_ -> result option_.

Definition set_driver (v : string) (o : option_) : option_ :=
  {| driver := v; level := level o; logPath := logPath o;
     encoderConfig := encoderConfig o; callerSkip := callerSkip o;
     maxAge := maxAge o; rotationTime := rotationTime o;
     useColor := useColor o; stacktraceLevel := stacktraceLevel o |}.
Definition set_level (v : Level) (o : option_) : option_ :=
  {| driver := driver o; level := v; logPath := logPath o;
     encoderConfig := encoderConfig o; callerSkip := callerSkip o;
     maxAge := maxAge o; rotationTime := rotationTime o;
     useColor := useColor o; stacktraceLevel := stacktraceLevel o |}.
Definition set_logPath (v : string) (o : option_) : option_ :=
  {| driver := driver o; level := level o; logPath := v;
     encoderConfig := encoderConfig o; callerSkip := callerSkip o;
     maxAge := maxAge o; rotationTime := rotationTime o;
     useColor := useColor o; stacktraceLevel := stacktraceLevel o |}.
Definition set_encoderConfig (v : EncoderConfig) (o : option_) : option_ :=
  {| driver := driver o; level := level o; logPath := logPath o;
     encoderConfig := v; callerSkip := callerSkip o;
     maxAge := maxAge o; rotationTime := rotationTime o;
     useColor := useColor o; stacktraceLevel := stacktraceLevel o |}.
Definition set_callerSkip (v : Z) (o : option_) : option_ :=
  {| driver := driver o; level := level o; logPath := logPath o;
     encoderConfig := encoderConfig o; callerSkip := v;
     maxAge := maxAge o; rotationTime := rotationTime o;
     useColor := useColor o; stacktraceLevel := stacktraceLevel o |}.
Definition set_maxAge (v : Duration) (o : option_) : option_ :=
  {| driver := driver o; level := level o; logPath := logPath o;
     encoderConfig := encoderConfig o; callerSkip := callerSkip o;
     maxAge := v; rotationTime := rotationTime o;
     useColor := useColor o; stacktraceLevel := stacktraceLevel o |}.
Definition set_rotationTime (v : Duration) (o : option_) : option_ :=
  {| driver := driver o; level := level o; logPath := logPath o;
     encoderConfig := encoderConfig o; callerSkip := callerSkip o;
     maxAge := maxAge o; rotationTime := v;
     useColor := useColor o; stacktraceLevel := stacktraceLevel o |}.
Definition set_useColor (v : bool) (o : option_) : option_ :=
  {| driver := driver o; level := level o; logPath := logPath o;
     encoderConfig := encoderConfig o; callerSkip := callerSkip o;
     maxAge := maxAge o; rotationTime := rotationTime o;
     useColor := v; stacktraceLevel := stacktraceLevel o |}.
Definition set_stacktraceLevel (v : Level) (o : option_) : option_ :=
  {| driver := driver o; level := level o; logPath := logPath o;
     encoderConfig := encoderConfig o; callerSkip := callerSkip o;
     maxAge := maxAge o; rotationTime := rotationTime o;
     useColor := useColor o; stacktraceLevel := v |}.

(** The level names both string switches accept, in source order. *)
Definition parse_level_name (name : string) : option Level :=
  if String.eqb name "debug" then Some DebugLevel
  else if String.eqb name "info" then Some InfoLevel
  else if String.eqb name "warn" then Some WarnLevel
  else if String.eqb name "error" then Some ErrorLevel
  else if String.eqb name "dpanic" then Some DPanicLevel
  else if String.eqb name "panic" then Some PanicLevel
  else if String.eqb name "fatal" then Some FatalLevel
  else None.

Definition WithDriver (d : string) : Option :=
  fun o => Ret (set_driver d o).

Definition WithLevel (name : string) : Option :=
  fun o =>
    match parse_level_name name with
    | Some l => Ret (set_level l o)
    | None => Panicked "invalid log level"
    end.

Definition WithLogPath (path : string) : Option :=
  fun o => Ret (set_logPath path o).

Definition WithEncoderConfig (config : EncoderConfig) : Option :=
  fun o => Ret (set_encoderConfig config o).

Definition WithCallerSkip (skip : Z) : Option :=
  fun o => Ret (set_callerSkip skip o).

Definition WithMaxAge (d : Duration) : Option :=
  fun o => Ret (set_maxAge d o).

Definition WithRotationTime (d : Duration) : Option :=
  fun o => Ret (set_rotationTime d o).

Definition WithColor (c : bool) : Option :=
  fun o => Ret (set_useColor c o).

Definition WithStacktraceLevel (name : string) : Option :=
  fun o =>
    match parse_level_name name with
    | Some l => Ret (set_stacktraceLevel l o)
    | None => Panicked "invalid log level"
    end.

(** [for _, f := range opts { f(opt) }] *)
Fixpoint apply_opts (opts : list Option) (o : option_) : result option_ :=
  match opts with
  | [] => Ret o
  | f :: rest => do o' <- f o; apply_opts rest o'
  end.

(** The struct literal at the head of [New]; fields the literal leaves
    out take Go's zero value. *)
Definition default_option : option_ := {|
  driver := defaultDriver;
  level := defaultLevel;
  logPath := "";
  encoderConfig := DefaultEncoderConfig;
  callerSkip := defaultCallerSkip;
  maxAge := 7 * 24 * Hour;
  rotationTime := 24 * Hour;
  useColor := false;
  stacktraceLevel := defaultStacktraceLevel
|}.

(** ** context.Context, as far as [ctx.Value(key)] sees it *)

Module context.

(** A Go interface value: a dynamic type with its value.  [NamedStr]
    is a value of a defined type whose underlying type is string
    (for instance [type ctxKey string]); it is not a [string]. *)
Inductive any :=
| Nil
| Str (s : string)
| Int (z : Z)
| Bool (b : bool)
| NamedStr (tyname : string) (s : string).

(** [==] on interface values: same dynamic type and same value *)
Definition any_eqb (a b : any) : bool :=
  match a, b with
  | Nil, Nil => true
  | Str s, Str t => String.eqb s t
  | Int x, Int y => Z.eqb x y
  | Bool x, Bool y => Bool.eqb x y
  | NamedStr n s, NamedStr m t => String.eqb n m && String.eqb s t
  | _, _ => false
  end.

(** [context.Background()] and chains of [context.WithValue] *)
Inductive Context :=
| Background
| WithValue (parent : Context) (key val : any).

(** [ctx.Value(key)]: the innermost binding of [key], or nil *)
Fixpoint Value (ctx : Context) (key : any) : any :=
  match ctx with
  | Background => Nil
  | WithValue parent k v => if any_eqb k key then v else Value parent key
  end.

(** The type assertion [v.(string)] with the comma-ok form *)
Definition assert_string (v : any) : string * bool :=
  match v with
  | Str s => (s, true)
  | _ => ("", false)
  end.

End context.

(** ** Dates and the strftime patterns of the rotation sink *)

Record Date := { year : Z; month : Z; day : Z }.

(** A wall-clock reading: date, time of day to the millisecond, and the
    zone as minutes east of UTC *)
Record Time := {
  t_date : Date;
  t_hour : Z;
  t_minute : Z;
  t_second : Z;
  t_milli : Z;
  t_zone : Z
}.

(** ** The calendar, as far as [time.Time.Truncate] needs it

    Go's calendar is the proleptic Gregorian one and its zero time is
    midnight of 1 January of year 1. *)

Definition is_leap (y : Z) : bool :=
  (y mod 4 =? 0) && (negb (y mod 100 =? 0) || (y mod 400 =? 0)).

Definition days_in_month (y m : Z) : Z :=
  if m =? 2 then (if is_leap y then 29 else 28)
  else if (m =? 4) || (m =? 6) || (m =? 9) || (m =? 11) then 30
  else 31.

(** Days from 1 January of year 1 to 1 January of year [y] *)
Definition days_before_year (y : Z) : Z :=
  365 * (y - 1) + (y - 1) / 4 - (y - 1) / 100 + (y - 1) / 400.

(** Days from 1 January of year [y] to the first of month [m] *)
Definition days_before_month (y m : Z) : Z :=
  fold_right Z.add 0
    (map (fun k => days_in_month y (Z.of_nat k)) (seq 1%nat (Z.to_nat (m - 1)))).

(** Days from the zero time to the date *)
Definition day_number (d : Date) : Z :=
  days_before_year (year d) + days_before_month (year d) (month d)
  + (day d - 1).

(** The day before *)
Definition prev_day (d : Date) : Date :=
  if 1 <? day d then
    {| year := year d; month := month d; day := day d - 1 |}
  else if 1 <? month d then
    {| year := year d; month := month d - 1;
       day := days_in_month (year d) (month d - 1) |}
  else {| year := year d - 1; month := 12; day := 31 |}.

(** Nanoseconds since midnight on the wall clock *)
Definition time_of_day (t : Time) : Duration :=
  t_hour t * Hour + t_minute t * Minute + t_second t * Second
  + t_milli t * Millisecond.

(** The date of [t.Truncate(d)], for the wall-clock reading [t] taken
    as UTC: [t] rounded down to a multiple of [d] since the zero time.
    Go returns [t] itself when [d <= 0] and [t.Add(-r)] otherwise, [r]
    being the remainder of the time since the zero time by [d]; going
    back [r] nanoseconds crosses midnight as many times as [r] exceeds
    the time of day by whole days, rounded up. *)
Definition Truncate_date (d : Duration) (t : Time) : Date :=
  if d <=? 0 then t_date t
  else
    let r := (day_number (t_date t) * (24 * Hour) + time_of_day t) mod d in
    Nat.iter (Z.to_nat (- ((time_of_day t - r) / (24 * Hour))))
      prev_day (t_date t).

Module strftime.

Definition digit (n : Z) : ascii := ascii_of_nat (48 + Z.to_nat (n mod 10)).

(** the [width] low decimal digits of [n], most significant first *)
Fixpoint digits (width : nat) (n : Z) : string :=
  match width with
  | O => EmptyString
  | S w => digits w (n / 10) ++ String (digit n) EmptyString
  end.

Inductive piece :=
| Verbatim (c : ascii)
| Directive (c : ascii).

(** Splits a pattern at its [%x] directives; a [%] that ends the
    pattern is an error. *)
Fixpoint compile (p : string) : option (list piece) :=
  match p with
  | EmptyString => Some []
  | String "%" EmptyString => None
  | String "%" (String c rest) => cons (Directive c) <$> compile rest
  | String c rest => cons (Verbatim c) <$> compile rest
  end.

Section Directives.
(** What the library does with the directives logger.go never
    writes itself is left open. *)
Variable other_directive : ascii -> option (Date -> string).

Definition directive (c : ascii) : option (Date -> string) :=
  if Ascii.eqb c "Y" then Some (fun d => digits 4 (year d))
  else if Ascii.eqb c "m" then Some (fun d => digits 2 (month d))
  else if Ascii.eqb c "d" then Some (fun d => digits 2 (day d))
  else other_directive c.

Definition known (pc : piece) : bool :=
  match pc with
  | Verbatim _ => true
  | Directive c => bool_decide (is_Some (directive c))
  end.

(** [strftime.New]: the pattern must split and use known directives *)
Definition New (p : string) : option (list piece) :=
  match compile p with
  | Some ps => if forallb known ps then Some ps else None
  | None => None
  end.

Definition format_piece (d : Date) (pc : piece) : string :=
  match pc with
  | Verbatim c => String c EmptyString
  | Directive c =>
      match directive c with
      | Some f => f d
      | None => EmptyString
      end
  end.

(** [pattern.FormatString(t)] *)
Definition FormatString (ps : list piece) (d : Date) : string :=
  fold_right (fun pc acc => format_piece d pc ++ acc) EmptyString ps.
End Directives.

End strftime.

(** ** zap fields, entries and encoders *)

Inductive FieldValue :=
| StringType (s : string)
| Int64Type (n : Z)
| BoolType (b : bool)
| ErrorType (msg : string).

Record Field := { Key : string; Val : FieldValue }.

(** [zap.String(key, val)] *)
Definition zap_String (key val : string) : Field :=
  {| Key := key; Val := StringType val |}.

(** zapcore.Entry; [Caller] and [Stack] are absent when not captured *)
Record Entry := {
  ELevel : Level;
  ETime : Time;
  LoggerName : string;
  Message : string;
  Caller : option string;
  Stack : option string
}.

Inductive Encoder :=
| JSONEncoder (cfg : EncoderConfig)      (* zapcore.NewJSONEncoder *)
| ConsoleEncoder (cfg : EncoderConfig).  (* zapcore.NewConsoleEncoder *)

(** What a core hands to its write syncer: the entry, the fields in
    encoding order, and the encoder that serialises them. *)
Record Written := {
  w_enc : Encoder;
  w_entry : Entry;
  w_fields : list Field
}.

(** ** file-rotatelogs *)

Record RotateLogs := {
  rl_pattern : list strftime.piece;
  rl_maxAge : Duration;
  rl_rotationTime : Duration
}.

(** ** Sinks, cores and loggers *)

Inductive Sink :=
| Stdout                      (* os.Stdout *)
| Stderr                      (* os.Stderr *)
| Rotating (h : RotateLogs).  (* a rotatelogs hook *)

(** A zap.AtomicLevel is a pointer to an atomic int32; the zero value
    holds a nil pointer. *)
Definition AtomicLevel := option positive.

(** zapcore's ioCore: encoder (with the fields added by [With] already
    encoded into it), write syncer and level enabler *)
Record Core := {
  c_enc : Encoder;
  c_fields : list Field;
  c_out : Sink;
  c_level : AtomicLevel
}.

Record Logger := {
  l_core : Core;
  l_name : string;
  l_addCaller : bool;
  l_callerSkip : Z;
  l_errorOutput : Sink;
  l_addStack : option Level
}.

(** Manager manages the logger instance and provides logging methods *)
Record Manager := {
  Zap : Logger;          (* Underlying Zap logger instance *)
  m_level : AtomicLevel  (* Atomic level for dynamic level changes *)
}.

(** A [*Manager]; [None] is the nil pointer *)
Definition ManagerPtr := option positive.

(** ** The world a logger lives in and writes to

    [cells] holds the int32 behind every zap.AtomicLevel and [managers]
    the Manager structs on the heap.  [stdout], [stderr] and [files]
    hold the records the cores wrote; [check_errors] holds what zap
    itself printed to a logger's error output, one entry for each line
    "<time> Logger.check error: failed to get caller", with the sink it
    went to and the time it shows.  [clock] is what time.Now returns.
    The call stack: frame 0 is the method of the package a call goes
    through (the function that calls zap), frame 1 its caller, which
    always exists, and [frames_above] counts the frames above that one;
    [call_site] is where each frame stands and [stack_trace] what the
    stack capture returns. *)
Record World := {
  cells : gmap positive Level;
  managers : gmap positive Manager;
  stdout : list Written;
  stderr : list Written;
  files : gmap string (list Written);
  check_errors : list (Sink * Time);
  clock : Time;
  frames_above : nat;
  call_site : Z -> string;
  stack_trace : string
}.

Definition set_cells (c : gmap positive Level) (w : World) : World :=
  {| cells := c; managers := managers w;
     stdout := stdout w; stderr := stderr w; files := files w;
     check_errors := check_errors w; clock := clock w;
     frames_above := frames_above w;
     call_site := call_site w; stack_trace := stack_trace w |}.
Definition set_managers (m : gmap positive Manager) (w : World) : World :=
  {| cells := cells w; managers := m;
     stdout := stdout w; stderr := stderr w; files := files w;
     check_errors := check_errors w; clock := clock w;
     frames_above := frames_above w;
     call_site := call_site w; stack_trace := stack_trace w |}.
Definition set_stdout (l : list Written) (w : World) : World :=
  {| cells := cells w; managers := managers w;
     stdout := l; stderr := stderr w; files := files w;
     check_errors := check_errors w; clock := clock w;
     frames_above := frames_above w;
     call_site := call_site w; stack_trace := stack_trace w |}.
Definition set_stderr (l : list Written) (w : World) : World :=
  {| cells := cells w; managers := managers w;
     stdout := stdout w; stderr := l; files := files w;
     check_errors := check_errors w; clock := clock w;
     frames_above := frames_above w;
     call_site := call_site w; stack_trace := stack_trace w |}.
Definition set_files (f : gmap string (list Written)) (w : World) : World :=
  {| cells := cells w; managers := managers w;
     stdout := stdout w; stderr := stderr w; files := f;
     check_errors := check_errors w; clock := clock w;
     frames_above := frames_above w;
     call_site := call_site w; stack_trace := stack_trace w |}.
Definition set_check_errors (l : list (Sink * Time)) (w : World) : World :=
  {| cells := cells w; managers := managers w;
     stdout := stdout w; stderr := stderr w; files := files w;
     check_errors := l; clock := clock w;
     frames_above := frames_above w;
     call_site := call_site w; stack_trace := stack_trace w |}.

(** The local date a rotation sink with the library's rotation time of
    24 hours names its current file after *)
Definition sink_date (w : World) : Date :=
  Truncate_date (24 * Hour) (clock w).

(** What [runtime.Callers] finds [skip] frames up from the function that
    calls zap: nothing when the stack ends before. *)
Definition caller_at (w : World) (skip : Z) : option string :=
  if skip <=? 1 + Z.of_nat (frames_above w)
  then Some (call_site w skip) else None.

(** A world to run examples in: nothing allocated, nothing written; a
    Thursday morning, in a function called from main. *)
Definition world0 : World := {|
  cells := ∅; managers := ∅; stdout := []; stderr := []; files := ∅;
  check_errors := [];
  clock := {| t_date := {| year := 2024; month := 3; day := 7 |};
             t_hour := 10; t_minute := 34; t_second := 56; t_milli := 789;
             t_zone := 60 |};
  frames_above := 2;
  call_site := fun _ => "main.go:12";
  stack_trace := "main.main"
|}.

(** A strftime library that knows %Y, %m and %d only *)
Definition no_directive : ascii -> option (Date -> string) := fun _ => None.

(** ** zap's JSON encoder, byte for byte *)

Module json.

(** The byte value of a character *)
Definition code (c : ascii) : N := N_of_ascii c.

Definition quote : ascii := ascii_of_N 34.
Definition backslash : ascii := ascii_of_N 92.

(** [String.append] on a one-character tail *)
Definition snoc (s : string) (c : ascii) : string :=
  (s ++ String c EmptyString)%string.

(** *** utf8.DecodeRune, as far as the size of a valid encoding *)

(** the string starts with a byte in [lo, hi] *)
Definition starts_in (lo hi : N) (s : string) : bool :=
  match s with
  | String c _ => (lo <=? code c)%N && (code c <=? hi)%N
  | EmptyString => false
  end.

Definition behead (s : string) : string :=
  match s with
  | String _ r => r
  | EmptyString => EmptyString
  end.

Definition seq3 (lo hi : N) (r : string) : nat :=
  if starts_in lo hi r && starts_in 128 191 (behead r) then 3%nat else 0%nat.

Definition seq4 (lo hi : N) (r : string) : nat :=
  if starts_in lo hi r && starts_in 128 191 (behead r)
     && starts_in 128 191 (behead (behead r))
  then 4%nat else 0%nat.

(** The number of bytes of the well-formed UTF-8 sequence the string
    starts with; 0 when it starts with none (the case in which
    DecodeRune returns RuneError with size 1). *)
Definition rune_len (s : string) : nat :=
  match s with
  | EmptyString => 0%nat
  | String c r =>
      let x := code c in
      if (x <? 128)%N then 1%nat
      else if (x <? 194)%N then 0%nat
      else if (x <=? 223)%N then
        if starts_in 128 191 r then 2%nat else 0%nat
      else if (x =? 224)%N then seq3 160 191 r
      else if (x =? 237)%N then seq3 128 159 r
      else if (x <=? 239)%N then seq3 128 191 r
      else if (x =? 240)%N then seq4 144 191 r
      else if (x <=? 243)%N then seq4 128 191 r
      else if (x =? 244)%N then seq4 128 143 r
      else 0%nat
  end.

(** *** safeAddString *)

(** [_hex[n]] for [_hex = "0123456789abcdef"] *)
Definition hex_char (n : N) : ascii :=
  if (n <? 10)%N then ascii_of_N (48 + n) else ascii_of_N (87 + n).

(** What is written for one byte below utf8.RuneSelf *)
Definition escape_byte (c : ascii) : string :=
  let x := code c in
  if (32 <=? x)%N && negb (x =? 92)%N && negb (x =? 34)%N
  then String c EmptyString
  else if (x =? 92)%N || (x =? 34)%N
  then String backslash (String c EmptyString)
  else if (x =? 10)%N then String backslash "n"
  else if (x =? 13)%N then String backslash "r"
  else if (x =? 9)%N then String backslash "t"
  else String backslash
         (String "u" (String "0" (String "0"
           (String (hex_char (x / 16)) (String (hex_char (x mod 16))
              EmptyString))))).

(** The escape of U+FFFD, written for a byte that starts no rune *)
Definition replacement_escape : string :=
  String backslash "ufffd".

(** The bytes of U+FFFD in UTF-8 *)
Definition replacement_bytes : string :=
  String (ascii_of_N 239) (String (ascii_of_N 191)
    (String (ascii_of_N 189) EmptyString)).

(** [skip] counts the bytes still to copy of a multi-byte rune that has
    been found well-formed. *)
Fixpoint safeAddString_from (skip : nat) (s : string) : string :=
  match s with
  | EmptyString => EmptyString
  | String c rest =>
      match skip with
      | S k => String c (safeAddString_from k rest)
      | O =>
          if (code c <? 128)%N
          then (escape_byte c ++ safeAddString_from 0 rest)%string
          else
            match rune_len s with
            | O => (replacement_escape ++ safeAddString_from 0 rest)%string
            | S k => String c (safeAddString_from k rest)
            end
      end
  end.

Definition safeAddString (s : string) : string := safeAddString_from 0 s.

(** The text a reader gets back from what [safeAddString] wrote: the
    string itself, with U+FFFD in place of every byte that starts no
    rune. *)
Fixpoint scrub_from (skip : nat) (s : string) : string :=
  match s with
  | EmptyString => EmptyString
  | String c rest =>
      match skip with
      | S k => String c (scrub_from k rest)
      | O =>
          if (code c <? 128)%N then String c (scrub_from 0 rest)
          else
            match rune_len s with
            | O => (replacement_bytes ++ scrub_from 0 rest)%string
            | S k => String c (scrub_from k rest)
            end
      end
  end.

Definition scrub (s : string) : string := scrub_from 0 s.

(** *** Levels, times and integers *)

(** [strconv.AppendInt(buf, n, 10)] *)
Definition AppendInt (n : Z) : string :=
  match Z.to_int n with
  | Decimal.Pos u => DecimalString.NilEmpty.string_of_uint u
  | Decimal.Neg u => String "-" (DecimalString.NilEmpty.string_of_uint u)
  end.

(** [l.CapitalString()] *)
Definition CapitalString (l : Level) : string :=
  if l =? DebugLevel then "DEBUG"
  else if l =? InfoLevel then "INFO"
  else if l =? WarnLevel then "WARN"
  else if l =? ErrorLevel then "ERROR"
  else if l =? DPanicLevel then "DPANIC"
  else if l =? PanicLevel then "PANIC"
  else if l =? FatalLevel then "FATAL"
  else ("LEVEL(" ++ AppendInt l ++ ")")%string.

(** [l.String()] *)
Definition LowerString (l : Level) : string :=
  if l =? DebugLevel then "debug"
  else if l =? InfoLevel then "info"
  else if l =? WarnLevel then "warn"
  else if l =? ErrorLevel then "error"
  else if l =? DPanicLevel then "dpanic"
  else if l =? PanicLevel then "panic"
  else if l =? FatalLevel then "fatal"
  else ("Level(" ++ AppendInt l ++ ")")%string.

Definition level_text (e : LevelEncoder) (l : Level) : string :=
  match e with
  | CapitalLevelEncoder => CapitalString l
  | LowercaseLevelEncoder => LowerString l
  end.

(** The zone of the layout "Z0700": Z for UTC, else sign, hours, minutes *)
Definition zone_text (z : Z) : string :=
  if z =? 0 then "Z"
  else ((if (z <? 0)%Z then "-" else "+")
        ++ strftime.digits 2 (Z.abs z / 60)%Z
        ++ strftime.digits 2 (Z.abs z mod 60)%Z)%string.

(** [t.Format("2006-01-02T15:04:05.000Z0700")] *)
Definition ISO8601 (t : Time) : string :=
  (strftime.digits 4 (year (t_date t)) ++ "-"
   ++ strftime.digits 2 (month (t_date t)) ++ "-"
   ++ strftime.digits 2 (day (t_date t)) ++ "T"
   ++ strftime.digits 2 (t_hour t) ++ ":"
   ++ strftime.digits 2 (t_minute t) ++ ":"
   ++ strftime.digits 2 (t_second t) ++ "."
   ++ strftime.digits 3 (t_milli t)
   ++ zone_text (t_zone t))%string.

(** *** EncodeEntry *)

(** What the encoder writes after a key: a string it escapes, a string
    it copies between quotes as it is (a formatted time), an integer or
    a boolean. *)
Inductive item :=
| Escaped (s : string)
| Copied (s : string)
| Integer (n : Z)
| Boolean (b : bool).

Definition item_of_field (v : FieldValue) : item :=
  match v with
  | StringType s => Escaped s
  | Int64Type n => Integer n
  | BoolType b => Boolean b
  | ErrorType msg => Escaped msg
  end.

Definition nonempty (s : string) : bool := negb (String.eqb s "").

(** The keys and values of one line, in the order EncodeEntry writes
    them: level, time, logger name, caller, message, the fields, the
    stack trace; each only under a non-empty key. *)
Definition members (cfg : EncoderConfig) (ent : Entry) (fs : list Field)
  : list (string * item) :=
  ((if nonempty (LevelKey cfg)
    then [(LevelKey cfg, Escaped (level_text (EncodeLevel cfg) (ELevel ent)))]
    else [])
   ++ (if nonempty (TimeKey cfg)
       then [(TimeKey cfg, Copied (ISO8601 (ETime ent)))] else [])
   ++ (if nonempty (LoggerName ent) && nonempty (NameKey cfg)
       then [(NameKey cfg, Escaped (LoggerName ent))] else [])
   ++ match Caller ent with
      | Some c => if nonempty (CallerKey cfg)
                  then [(CallerKey cfg, Escaped c)] else []
      | None => []
      end
   ++ (if nonempty (MessageKey cfg)
       then [(MessageKey cfg, Escaped (Message ent))] else [])
   ++ map (fun f => (Key f, item_of_field (Val f))) fs
   ++ match Stack ent with
      | Some st => if nonempty st && nonempty (StacktraceKey cfg)
                   then [(StacktraceKey cfg, Escaped st)] else []
      | None => []
      end)%list.

Definition write_item (v : item) : string :=
  match v with
  | Escaped s => String quote (safeAddString s ++ String quote EmptyString)
  | Copied s => String quote (s ++ String quote EmptyString)
  | Integer n => AppendInt n
  | Boolean b => if b then "true" else "false"
  end%string.

(** [addKey(key)] and the value after it *)
Definition write_member (m : string * item) : string :=
  (String quote (safeAddString (fst m) ++ String quote EmptyString)
   ++ ":" ++ write_item (snd m))%string.

(** The members with the element separator between them *)
Fixpoint write_members (ms : list (string * item)) : string :=
  match ms with
  | [] => EmptyString
  | [m] => write_member m
  | m :: rest => (write_member m ++ "," ++ write_members rest)%string
  end.

(** [jsonEncoder.EncodeEntry(ent, fields)] *)
Definition EncodeEntry (cfg : EncoderConfig) (ent : Entry) (fs : list Field)
  : string :=
  ("{" ++ write_members (members cfg ent fs) ++ "}" ++ LineEnding cfg)%string.

(** *** Reading a line back: a parser for flat JSON objects *)

Inductive value :=
| JString (s : string)
| JNumber (n : Z)
| JBool (b : bool).

(** Where a string being read belongs: a key of the object so far, or
    the value under a key *)
Inductive place :=
| AsKey (obj : list (string * value))
| AsValue (obj : list (string * value)) (key : string).

Inductive state :=
| Start                                   (* nothing read *)
| Open                                    (* after the opening brace *)
| Next (obj : list (string * value))      (* after a comma *)
| InString (p : place) (acc : string)
| Escape (p : place) (acc : string)       (* after a backslash *)
| Hex (p : place) (acc : string) (n : nat) (v : N)  (* in a \u escape *)
| Colon (obj : list (string * value)) (key : string)
| Value (obj : list (string * value)) (key : string)
| Number (obj : list (string * value)) (key : string) (neg : bool)
    (rev_digits : Decimal.uint)
| Word (obj : list (string * value)) (key : string) (rest : string)
    (v : value)
| After (obj : list (string * value))     (* after a value *)
| Closed (obj : list (string * value))    (* after the closing brace *)
| Done (obj : list (string * value))      (* after the line ending *)
| Fail.

Definition close_string (p : place) (acc : string) : state :=
  match p with
  | AsKey obj => Colon obj acc
  | AsValue obj key => After (obj ++ [(key, JString acc)])
  end.

Definition hex_value (c : ascii) : option N :=
  let x := code c in
  if (48 <=? x)%N && (x <=? 57)%N then Some (x - 48)%N
  else if (97 <=? x)%N && (x <=? 102)%N then Some (x - 87)%N
  else if (65 <=? x)%N && (x <=? 70)%N then Some (x - 55)%N
  else None.

(** The UTF-8 bytes of a code point of the basic plane *)
Definition utf8_bytes (v : N) : string :=
  if (v <? 128)%N then String (ascii_of_N v) EmptyString
  else if (v <? 2048)%N then
    String (ascii_of_N (192 + v / 64))
      (String (ascii_of_N (128 + v mod 64)) EmptyString)
  else
    String (ascii_of_N (224 + v / 4096))
      (String (ascii_of_N (128 + (v / 64) mod 64))
         (String (ascii_of_N (128 + v mod 64)) EmptyString)).

(** The number read so far: at least one digit, no leading zero *)
Definition close_number (neg : bool) (rev_digits : Decimal.uint) : option Z :=
  match Decimal.rev rev_digits with
  | Decimal.Nil => None
  | Decimal.D0 (Decimal.D0 _ | Decimal.D1 _ | Decimal.D2 _ | Decimal.D3 _
               | Decimal.D4 _ | Decimal.D5 _ | Decimal.D6 _ | Decimal.D7 _
               | Decimal.D8 _ | Decimal.D9 _) => None
  | u => Some (Z.of_int (if neg then Decimal.Neg u else Decimal.Pos u))
  end.

(** After a value: a comma or the closing brace *)
Definition after (obj : list (string * value)) (c : ascii) : state :=
  if (code c =? 44)%N then Next obj
  else if (code c =? 125)%N then Closed obj
  else Fail.

Definition step (st : state) (c : ascii) : state :=
  let x := code c in
  match st with
  | Start => if (x =? 123)%N then Open else Fail
  | Open =>
      if (x =? 34)%N then InString (AsKey []) EmptyString
      else if (x =? 125)%N then Closed []
      else Fail
  | Next obj => if (x =? 34)%N then InString (AsKey obj) EmptyString else Fail
  | InString p acc =>
      if (x =? 34)%N then close_string p acc
      else if (x =? 92)%N then Escape p acc
      else if (x <? 32)%N then Fail
      else InString p (snoc acc c)
  | Escape p acc =>
      if (x =? 34)%N || (x =? 92)%N || (x =? 47)%N then InString p (snoc acc c)
      else if (x =? 98)%N then InString p (snoc acc (ascii_of_N 8))
      else if (x =? 102)%N then InString p (snoc acc (ascii_of_N 12))
      else if (x =? 110)%N then InString p (snoc acc (ascii_of_N 10))
      else if (x =? 114)%N then InString p (snoc acc (ascii_of_N 13))
      else if (x =? 116)%N then InString p (snoc acc (ascii_of_N 9))
      else if (x =? 117)%N then Hex p acc 0 0
      else Fail
  | Hex p acc n v =>
      match hex_value c with
      | None => Fail
      | Some d =>
          let v' := (16 * v + d)%N in
          if (n <? 3)%nat then Hex p acc (S n) v'
          else if (55296 <=? v')%N && (v' <=? 57343)%N then Fail
          else InString p (acc ++ utf8_bytes v')%string
      end
  | Colon obj key => if (x =? 58)%N then Value obj key else Fail
  | Value obj key =>
      if (x =? 34)%N then InString (AsValue obj key) EmptyString
      else if (x =? 45)%N then Number obj key true Decimal.Nil
      else if (x =? 116)%N then Word obj key "rue" (JBool true)
      else if (x =? 102)%N then Word obj key "alse" (JBool false)
      else
        match DecimalString.uint_of_char c (Some Decimal.Nil) with
        | Some d => Number obj key false d
        | None => Fail
        end
  | Number obj key neg ds =>
      match DecimalString.uint_of_char c (Some ds) with
      | Some ds' => Number obj key neg ds'
      | None =>
          match close_number neg ds with
          | Some n => after (obj ++ [(key, JNumber n)]) c
          | None => Fail
          end
      end
  | Word obj key rest v =>
      match rest with
      | String e EmptyString =>
          if Ascii.eqb c e then After (obj ++ [(key, v)]) else Fail
      | String e r => if Ascii.eqb c e then Word obj key r v else Fail
      | EmptyString => Fail
      end
  | After obj => after obj c
  | Closed obj => if (x =? 10)%N then Done obj else Fail
  | Done _ => Fail
  | Fail => Fail
  end.

Fixpoint run (st : state) (s : string) : state :=
  match s with
  | EmptyString => st
  | String c rest => run (step st c) rest
  end.

(** One line holding one object, with or without its line feed *)
Definition parse (line : string) : option (list (string * value)) :=
  match run Start line with
  | Closed obj | Done obj => Some obj
  | _ => None
  end.

(** What a reader gets for an item *)
Definition read_item (v : item) : value :=
  match v with
  | Escaped s => JString (scrub s)
  | Copied s => JString s
  | Integer n => JNumber n
  | Boolean b => JBool b
  end.

Definition read_member (m : string * item) : string * value :=
  (scrub (fst m), read_item (snd m)).

(** The value a Go map decoded from the object holds under [key]: the
    last one written *)
Fixpoint get (key : string) (obj : list (string * value)) : option value :=
  match obj with
  | [] => None
  | (k, v) :: rest =>
      match get key rest with
      | Some v' => Some v'
      | None => if String.eqb k key then Some v else None
      end
  end.

End json.

(** *** What the proofs about the reader speak of *)

(** a byte the reader takes as it is inside a string *)
Definition plain_byte (c : ascii) : bool :=
  (32 <=? json.code c)%N && negb (json.code c =? 34)%N
  && negb (json.code c =? 92)%N.

Fixpoint plain (s : string) : bool :=
  match s with
  | EmptyString => true
  | String c r => plain_byte c && plain r
  end.

(** the next [k] bytes are there and are not below utf8.RuneSelf *)
Fixpoint conts (k : nat) (s : string) : bool :=
  match k with
  | O => true
  | S k' =>
      match s with
      | String c r => (128 <=? json.code c)%N && conts k' r
      | EmptyString => false
      end
  end.

Definition delimiter (c : ascii) : Prop :=
  json.code c = 44%N \/ json.code c = 125%N.

(** an item the reader can take: a copied string must be plain *)
Definition item_ok (v : json.item) : bool :=
  match v with
  | json.Copied s => plain s
  | _ => true
  end.

(** the reader stands where a key may start *)
Definition at_key (st : json.state) (obj : list (string * json.value)) : Prop :=
  st = json.Next obj \/ (st = json.Open /\ obj = []).

Section Logger.

(** Directives of the strftime library beyond %Y, %m and %d. *)
Variable other_directive : ascii -> option (Date -> string).

(** ** file-rotatelogs: construction *)

(** [rotatelogs.New(p, WithMaxAge(a), WithRotationTime(r))]: fails on a
    pattern strftime rejects; negative durations are clamped to zero and
    a zero max age falls back to seven days. *)
Definition rotatelogs_New (p : string) (a r : Duration)
  : RotateLogs + string :=
  match strftime.New other_directive p with
  | None => inr "invalid strftime pattern"
  | Some ps =>
      let a0 := if a <? 0 then 0 else a in
      let r0 := if r <? 0 then 0 else r in
      inl {| rl_pattern := ps;
             rl_maxAge := if a0 =? 0 then 7 * 24 * Hour else a0;
             rl_rotationTime := r0 |}
  end.

(** The file the hook is writing at this moment: the pattern expanded
    at the clock's reading truncated to the rotation time *)
Definition current_file (h : RotateLogs) (w : World) : string :=
  strftime.FormatString other_directive (rl_pattern h)
    (Truncate_date (rl_rotationTime h) (clock w)).

(** What has been written to the file at [path] so far *)
Definition file_content (path : string) (w : World) : list Written :=
  default [] (files w !! path).

(** [sink.Write(line)]: appends to the stream or file behind the sink *)
Definition sink_write (s : Sink) (r : Written) (w : World) : World :=
  match s with
  | Stdout => set_stdout (stdout w ++ [r])%list w
  | Stderr => set_stderr (stderr w ++ [r])%list w
  | Rotating h =>
      let f := current_file h w in
      set_files (<[f := (file_content f w ++ [r])%list]> (files w)) w
  end.

Definition nil_deref : string :=
  "invalid memory address or nil pointer dereference".

(** [zap.NewAtomicLevelAt(l)] *)
Definition NewAtomicLevelAt (l : Level) (w : World) : World * AtomicLevel :=
  let p := fresh (dom (cells w)) in
  (set_cells (<[p := l]> (cells w)) w, Some p).

(** [lvl.Level()] *)
Definition AtomicLevel_Level (a : AtomicLevel) (w : World) : result Level :=
  match a with
  | Some p =>
      match cells w !! p with
      | Some l => Ret l
      | None => Panicked nil_deref
      end
  | None => Panicked nil_deref
  end.

(** [lvl.SetLevel(l)] *)
Definition AtomicLevel_SetLevel (a : AtomicLevel) (l : Level) (w : World)
  : World * result unit :=
  match AtomicLevel_Level a w, a with
  | Ret _, Some p => (set_cells (<[p := l]> (cells w)) w, Ret tt)
  | _, _ => (w, Panicked nil_deref)
  end.

(** [lvl.Enabled(l)] is [l >= lvl.Level()] *)
Definition AtomicLevel_Enabled (a : AtomicLevel) (l : Level) (w : World)
  : result bool :=
  do t <- AtomicLevel_Level a w; Ret (t <=? l).

(** [zapcore.NewCore(enc, ws, enab)] *)
Definition NewCore (enc : Encoder) (ws : Sink) (enab : AtomicLevel) : Core :=
  {| c_enc := enc; c_fields := []; c_out := ws; c_level := enab |}.

(** [core.With(fields)] *)
Definition Core_With (c : Core) (fs : list Field) : Core :=
  {| c_enc := c_enc c; c_fields := (c_fields c ++ fs)%list;
     c_out := c_out c; c_level := c_level c |}.

(** [core.Write(ent, fields)] *)
Definition Core_Write (c : Core) (ent : Entry) (fs : list Field) (w : World)
  : World :=
  sink_write (c_out c)
    {| w_enc := c_enc c; w_entry := ent;
       w_fields := (c_fields c ++ fs)%list |} w.

(** [zap.New(core, AddCaller(), AddCallerSkip(n), ErrorOutput(ws),
    AddStacktrace(lvl))] *)
Definition zap_New (c : Core) (skip : Z) (errOut : Sink) (stackLvl : Level)
  : Logger :=
  {| l_core := c; l_name := ""; l_addCaller := true; l_callerSkip := skip;
     l_errorOutput := errOut; l_addStack := Some stackLvl |}.

(** [log.With(fields...)]: a clone whose core carries the extra fields;
    with no fields the receiver itself *)
Definition Logger_With (lg : Logger) (fs : list Field) : Logger :=
  match fs with
  | [] => lg
  | _ =>
      {| l_core := Core_With (l_core lg) fs; l_name := l_name lg;
         l_addCaller := l_addCaller lg; l_callerSkip := l_callerSkip lg;
         l_errorOutput := l_errorOutput lg; l_addStack := l_addStack lg |}
  end.

(** [log.Named(s)]: a clone with [s] appended to the name after a dot;
    with the empty segment the receiver itself *)
Definition Logger_Named (lg : Logger) (s : string) : Logger :=
  if String.eqb s "" then lg
  else
    {| l_core := l_core lg;
       l_name := if String.eqb (l_name lg) "" then s
                 else (l_name lg ++ "." ++ s)%string;
       l_addCaller := l_addCaller lg; l_callerSkip := l_callerSkip lg;
       l_errorOutput := l_errorOutput lg; l_addStack := l_addStack lg |}.

(** What follows the write of an entry: Panic panics with the message,
    Fatal exits with status 1 (DPanic panics only in development mode,
    which logger.go never turns on). *)
Definition terminal (lvl : Level) (msg : string) : result unit :=
  if lvl =? PanicLevel then Panicked msg
  else if lvl =? FatalLevel then Exited 1
  else Ret tt.

(** The entry a logger stamps for a message at a level.  When the
    stack holds no frame at the caller skip, the entry has no caller and
    no stack trace. *)
Definition make_entry (lg : Logger) (lvl : Level) (msg : string) (w : World)
  : Entry :=
  {| ELevel := lvl;
     ETime := clock w;
     LoggerName := l_name lg;
     Message := msg;
     Caller := if l_addCaller lg
               then caller_at w (l_callerSkip lg) else None;
     Stack := match l_addStack lg, caller_at w (l_callerSkip lg) with
              | Some s, Some _ =>
                  if s <=? lvl then Some (stack_trace w) else None
              | _, _ => None
              end |}.

(** What zap's [Logger.check] does besides stamping the entry: a logger
    that annotates callers and finds no frame at its caller skip prints
    "<time> Logger.check error: failed to get caller" to its error
    output. *)
Definition report_caller (lg : Logger) (w : World) : World :=
  if l_addCaller lg then
    match caller_at w (l_callerSkip lg) with
    | Some _ => w
    | None =>
        set_check_errors
          (check_errors w ++ [(l_errorOutput lg, clock w)])%list w
    end
  else w.

(** [log.Info(msg, fields...)] and its siblings, by level: the core is
    asked whether the level is enabled; an enabled entry is stamped and
    written; then the terminal behaviour of the level runs, whether or
    not the entry was written. *)
Definition Logger_log (lg : Logger) (lvl : Level) (msg : string)
    (fs : list Field) (w : World) : World * result unit :=
  match AtomicLevel_Enabled (c_level (l_core lg)) lvl w with
  | Ret true =>
      (Core_Write (l_core lg) (make_entry lg lvl msg w) fs
         (report_caller lg w),
       terminal lvl msg)
  | Ret false => (w, terminal lvl msg)
  | Panicked m => (w, Panicked m)
  | Exited c => (w, Exited c)
  end.

(** ** logger.go: construction *)

(** Go's [error]: [None] is nil *)
Definition error := option string.

(** newFileCore creates a new zapcore.Core for file-based logging *)
Definition newFileCore (opt : option_) (encoder : Encoder)
    (lvl : AtomicLevel) : option Core * error :=
  match rotatelogs_New (logPath opt ++ "%Y-%m-%d.log")%string
          (maxAge opt) (rotationTime opt) with
  | inr err => (None, Some err)
  | inl hook => (Some (NewCore encoder (Rotating hook) lvl), None)
  end.

(** [&Manager{...}]: a fresh struct on the heap *)
Definition alloc_Manager (m : Manager) (w : World) : World * ManagerPtr :=
  let p := fresh (dom (managers w)) in
  (set_managers (<[p := m]> (managers w)) w, Some p).

(** New creates a new logger manager with the given options *)
Definition New (opts : list Option) (w : World)
  : World * result (ManagerPtr * error) :=
  match apply_opts opts default_option with
  | Panicked m => (w, Panicked m)
  | Exited c => (w, Exited c)
  | Ret opt =>
      let '(w1, lvl) := NewAtomicLevelAt (level opt) w in
      let encoder :=
        if useColor opt then ConsoleEncoder (encoderConfig opt)
        else JSONEncoder (encoderConfig opt) in
      let finish (core : Core) :=
        let logger :=
          zap_New core (callerSkip opt) Stderr (stacktraceLevel opt) in
        let '(w2, p) :=
          alloc_Manager {| Zap := logger; m_level := lvl |} w1 in
        (w2, Ret (p, None)) in
      if String.eqb (driver opt) "stdout" then
        finish (NewCore encoder Stdout lvl)
      else if String.eqb (driver opt) "file" then
        match newFileCore opt encoder lvl with
        | (_, Some err) =>
            (w1, Ret (None, Some ("failed to create file core: " ++ err)%string))
        | (Some core, None) => finish core
        | (None, None) => (w1, Panicked nil_deref)
        end
      else
        (w1, Ret (None, Some ("unknown driver: " ++ driver opt)%string))
  end.

(** ** logger.go: the Manager's methods *)

(** Dereferencing the receiver *)
Definition load (m : ManagerPtr) (w : World) : result Manager :=
  match m with
  | Some p =>
      match managers w !! p with
      | Some mg => Ret mg
      | None => Panicked nil_deref
      end
  | None => Panicked nil_deref
  end.

(** getTraceIDFromContext extracts the TraceID from the context *)
Definition getTraceIDFromContext (ctx : context.Context) : string :=
  let '(traceID, ok) :=
    context.assert_string (context.Value ctx (context.Str TraceIDKey)) in
  if ok then traceID else "".

(** getLoggerWithTraceID returns a logger with the TraceID field added
    if present in the context *)
Definition getLoggerWithTraceID (m : ManagerPtr) (ctx : context.Context)
    (w : World) : result Logger :=
  let traceID := getTraceIDFromContext ctx in
  do mg <- load m w;
  if String.eqb traceID "" then Ret (Zap mg)
  else Ret (Logger_With (Zap mg) [zap_String "TraceID" traceID]).

(** SetLevel dynamically changes the log level *)
Definition SetLevel (m : ManagerPtr) (lvl : Level) (w : World)
  : World * result unit :=
  match load m w with
  | Ret mg => AtomicLevel_SetLevel (m_level mg) lvl w
  | Panicked x => (w, Panicked x)
  | Exited c => (w, Exited c)
  end.

(** The common body of the six leveled methods:
    [logger := m.getLoggerWithTraceID(ctx); logger.X(msg, fields...)] *)
Definition leveled (lvl : Level) (m : ManagerPtr) (ctx : context.Context)
    (msg : string) (fields : list Field) (w : World) : World * result unit :=
  match getLoggerWithTraceID m ctx w with
  | Ret logger => Logger_log logger lvl msg fields w
  | Panicked x => (w, Panicked x)
  | Exited c => (w, Exited c)
  end.

Definition Info := leveled InfoLevel.
Definition Error := leveled ErrorLevel.
Definition Debug := leveled DebugLevel.
Definition Warn := leveled WarnLevel.
Definition Fatal := leveled FatalLevel.
Definition Panic := leveled PanicLevel.

(** Named adds a sub-scope to the logger's name *)
Definition Named (m : ManagerPtr) (name : string) (w : World)
  : result Logger :=
  do mg <- load m w; Ret (Logger_Named (Zap mg) name).

(** With creates a child logger and adds structured context to it *)
Definition With (m : ManagerPtr) (fields : list Field) (w : World)
  : result Logger :=
  do mg <- load m w; Ret (Logger_With (Zap mg) fields).

(** ** Observing a run *)

(** What a sink holds at the moment *)
Definition output_of (s : Sink) (w : World) : list Written :=
  match s with
  | Stdout => stdout w
  | Stderr => stderr w
  | Rotating h => file_content (current_file h w) w
  end.

(** A call emits when it leaves one more record in some sink. *)
Definition emits (w w' : World) : Prop :=
  exists (s : Sink) (r : Written), output_of s w' = (output_of s w ++ [r])%list.

(** The threshold a manager's calls are gated by *)
Definition threshold (m : ManagerPtr) (w : World) : result Level :=
  do mg <- load m w; AtomicLevel_Level (m_level mg) w.

(** Operations a program performs on one manager, and their effect on
    the world (what each call returns is dropped). *)
Inductive Op :=
| OpSetLevel (lvl : Level)
| OpLeveled (lvl : Level) (ctx : context.Context) (msg : string)
    (fields : list Field)
| OpNamed (name : string)
| OpWith (fields : list Field)
| OpTick (now : Time).   (* time passes between two calls *)

Definition is_SetLevel (o : Op) : bool :=
  match o with OpSetLevel _ => true | _ => false end.

Definition set_time (now : Time) (w : World) : World :=
  {| cells := cells w; managers := managers w;
     stdout := stdout w; stderr := stderr w; files := files w;
     check_errors := check_errors w; clock := now;
     frames_above := frames_above w;
     call_site := call_site w; stack_trace := stack_trace w |}.

Definition step (m : ManagerPtr) (o : Op) (w : World) : World :=
  match o with
  | OpSetLevel lvl => fst (SetLevel m lvl w)
  | OpLeveled lvl ctx msg fields => fst (leveled lvl m ctx msg fields w)
  | OpNamed _ => w
  | OpWith _ => w
  | OpTick now => set_time now w
  end.

Definition run (m : ManagerPtr) (ops : list Op) (w : World) : World :=
  fold_left (fun w o => step m o w) ops w.

(** The level given to the last [SetLevel] of a run, [init] if none *)
Definition last_level (ops : list Op) (init : Level) : Level :=
  fold_left (fun t o => match o with OpSetLevel l => l | _ => t end) ops init.

(** The record a logger writes for a message at a level *)
Definition record_of (lg : Logger) (lvl : Level) (msg : string)
    (fs : list Field) (w : World) : Written :=
  {| w_enc := c_enc (l_core lg);
     w_entry := make_entry lg lvl msg w;
     w_fields := (c_fields (l_core lg) ++ fs)%list |}.

(** The fields the trace enricher puts in front of a call's own *)
Definition trace_fields (ctx : context.Context) : list Field :=
  if String.eqb (getTraceIDFromContext ctx) "" then []
  else [zap_String "TraceID" (getTraceIDFromContext ctx)].

(** The context carries the trace identifier [v]. *)
Definition carries_trace (ctx : context.Context) (v : string) : Prop :=
  context.Value ctx (context.Str TraceIDKey) = context.Str v /\ v <> "".

(** The encoder [New] picks for an option struct *)
Definition encoder_of (opt : option_) : Encoder :=
  if useColor opt then ConsoleEncoder (encoderConfig opt)
  else JSONEncoder (encoderConfig opt).

(** The manager [New] builds from [opt] over [sink], with its level
    cell currently at [t]. *)
Definition built (opt : option_) (sink : Sink) (m : ManagerPtr)
    (w : World) (t : Level) : Prop :=
  exists mg lc,
    load m w = Ret mg /\ m_level mg = Some lc /\ cells w !! lc = Some t /\
    Zap mg = zap_New (NewCore (encoder_of opt) sink (Some lc))
               (callerSkip opt) Stderr (stacktraceLevel opt).

(** The pieces of a pattern that is all plain text *)
Fixpoint verbatim (s : string) : list strftime.piece :=
  match s with
  | EmptyString => []
  | String c rest => strftime.Verbatim c :: verbatim rest
  end.

(** The pieces of the pattern "%Y-%m-%d.log" *)
Definition date_pieces : list strftime.piece :=
  [strftime.Directive "Y"; strftime.Verbatim "-"; strftime.Directive "m";
   strftime.Verbatim "-"; strftime.Directive "d"; strftime.Verbatim ".";
   strftime.Verbatim "l"; strftime.Verbatim "o"; strftime.Verbatim "g"].

(** The name of the day's file under [path]: path, YYYY-MM-DD, ".log" *)
Definition dated_file (path : string) (d : Date) : string :=
  (path ++ strftime.digits 4 (year d) ++ "-" ++ strftime.digits 2 (month d)
     ++ "-" ++ strftime.digits 2 (day d) ++ ".log")%string.

(** A path with no [%] in it *)
Fixpoint literal (s : string) : bool :=
  match s with
  | EmptyString => true
  | String c rest => negb (Ascii.eqb c "%") && literal rest
  end.

(** A manager as [New] wires it: the struct is on the heap, and its
    core is gated by the very cell its [level] field points to. *)
Definition wired (m : ManagerPtr) (w : World) (t : Level) : Prop :=
  exists mg p,
    load m w = Ret mg /\ m_level mg = Some p /\
    c_level (l_core (Zap mg)) = Some p /\ cells w !! p = Some t.

(** ** Describing runs and option lists *)




(** The options a program can build: the option struct is unexported,
    so an [Option] comes from one of the nine With functions. *)
Inductive Setting :=
| UseDriver (d : string)
| UseLevel (name : string)
| UseLogPath (path : string)
| UseEncoderConfig (config : EncoderConfig)
| UseCallerSkip (skip : Z)
| UseMaxAge (d : Duration)
| UseRotationTime (d : Duration)
| UseColor (c : bool)
| UseStacktraceLevel (name : string).

Definition option_of (s : Setting) : Option :=
  match s with
  | UseDriver d => WithDriver d
  | UseLevel name => WithLevel name
  | UseLogPath path => WithLogPath path
  | UseEncoderConfig config => WithEncoderConfig config
  | UseCallerSkip skip => WithCallerSkip skip
  | UseMaxAge d => WithMaxAge d
  | UseRotationTime d => WithRotationTime d
  | UseColor c => WithColor c
  | UseStacktraceLevel name => WithStacktraceLevel name
  end.

(** a setting whose option does not panic *)
Definition well_named (s : Setting) : bool :=
  match s with
  | UseLevel name | UseStacktraceLevel name =>
      bool_decide (is_Some (parse_level_name name))
  | _ => true
  end.

(** The value the last setting of one kind gives, [init] if none *)
Fixpoint last_of {A} (pick : Setting -> option A) (ss : list Setting)
    (init : A) : A :=
  match ss with
  | [] => init
  | s :: rest => last_of pick rest (default init (pick s))
  end.

Definition settled (ss : list Setting) (o : option_) : option_ := {|
  driver :=
    last_of (fun s => match s with UseDriver d => Some d | _ => None end)
      ss (driver o);
  level :=
    last_of (fun s => match s with
                      | UseLevel n => parse_level_name n | _ => None end)
      ss (level o);
  logPath :=
    last_of (fun s => match s with UseLogPath p => Some p | _ => None end)
      ss (logPath o);
  encoderConfig :=
    last_of (fun s => match s with
                      | UseEncoderConfig c => Some c | _ => None end)
      ss (encoderConfig o);
  callerSkip :=
    last_of (fun s => match s with UseCallerSkip k => Some k | _ => None end)
      ss (callerSkip o);
  maxAge :=
    last_of (fun s => match s with UseMaxAge d => Some d | _ => None end)
      ss (maxAge o);
  rotationTime :=
    last_of (fun s => match s with
                      | UseRotationTime d => Some d | _ => None end)
      ss (rotationTime o);
  useColor :=
    last_of (fun s => match s with UseColor c => Some c | _ => None end)
      ss (useColor o);
  stacktraceLevel :=
    last_of (fun s => match s with
                      | UseStacktraceLevel n => parse_level_name n
                      | _ => None end)
      ss (stacktraceLevel o)
|}.

(** ** caller_skip.go *)

(** The conversion [int32(n)] of a Go int: the low 32 bits, signed *)
Definition int32 (n : Z) : Z := (n + 2 ^ 31) mod 2 ^ 32 - 2 ^ 31.

(** CallerSkip is a struct that holds the number of frames to skip: a
    pointer to an atomic.Int32, nil in the zero value.  The int32 lives
    in [cells], as the one behind an AtomicLevel does. *)
Record CallerSkip := { skip : option positive }.

(** Set sets the number of frames to skip *)
Definition CallerSkip_Set (c : CallerSkip) (n : Z) (w : World)
  : World * result unit :=
  match skip c with
  | Some p =>
      match cells w !! p with
      | Some _ => (set_cells (<[p := int32 n]> (cells w)) w, Ret tt)
      | None => (w, Panicked nil_deref)
      end
  | None => (w, Panicked nil_deref)
  end.

(** Load loads the number of frames to skip *)
Definition CallerSkip_Load (c : CallerSkip) (w : World) : result Z :=
  match skip c with
  | Some p =>
      match cells w !! p with
      | Some v => Ret v
      | None => Panicked nil_deref
      end
  | None => Panicked nil_deref
  end.

(** [cs := CallerSkip{skip: new(atomic.Int32)}; cs.Set(skip); return cs] *)
Definition NewCallerSkip (n : Z) (w : World) : World * result CallerSkip :=
  let p := fresh (dom (cells w)) in
  let cs := {| skip := Some p |} in
  match CallerSkip_Set cs n (set_cells (<[p := 0]> (cells w)) w) with
  | (w', Ret _) => (w', Ret cs)
  | (w', Panicked msg) => (w', Panicked msg)
  | (w', Exited code) => (w', Exited code)
  end.

(** ** logger.go, the earlier version kept in the file

    The version of the package that precedes the atomic level: four
    options, a level fixed at construction, and for the "stdout" driver
    two cores that split the records between standard-out and
    standard-error.  Its names carry the prefix [v1_]. *)

Record v1_option := {
  v1_driver : string;
  v1_level : Level;
  v1_logPath : string;
  v1_encoderConfig : EncoderConfig
}.

(** These options cannot panic: an [Option] is a plain update. *)
Definition v1_Option := v1_option -> v1_option.

Definition v1_WithDriver (d : string) : v1_Option :=
  fun o => {| v1_driver := d; v1_level := v1_level o;
              v1_logPath := v1_logPath o;
              v1_encoderConfig := v1_encoderConfig o |}.

Definition v1_WithLevel (name : string) : v1_Option :=
  fun o =>
    {| v1_driver := v1_driver o;
       v1_level :=
         if String.eqb name "debug" then DebugLevel
         else if String.eqb name "error" then ErrorLevel
         else if String.eqb name "warn" then WarnLevel
         else if String.eqb name "fatal" then FatalLevel
         else InfoLevel;
       v1_logPath := v1_logPath o;
       v1_encoderConfig := v1_encoderConfig o |}.

Definition v1_WithLogPath (path : string) : v1_Option :=
  fun o => {| v1_driver := v1_driver o; v1_level := v1_level o;
              v1_logPath := path;
              v1_encoderConfig := v1_encoderConfig o |}.

Definition v1_WithEncoderConfig (config : EncoderConfig) : v1_Option :=
  fun o => {| v1_driver := v1_driver o; v1_level := v1_level o;
              v1_logPath := v1_logPath o;
              v1_encoderConfig := config |}.

(** [&option{driver: DefaultDriver, level: DefaultLevel,
    encoderConfig: DefaultEncoderConfig}] *)
Definition v1_default_option : v1_option := {|
  v1_driver := "stdout";
  v1_level := InfoLevel;
  v1_logPath := "";
  v1_encoderConfig := DefaultEncoderConfig
|}.

(** An ioCore whose enabler is a [zap.LevelEnablerFunc] *)
Record v1_ioCore := {
  v1_enc : Encoder;
  v1_fields : list Field;
  v1_out : Sink;
  v1_enab : Level -> bool
}.

(** [zapcore.NewCore(enc, ws, enab)] *)
Definition v1_NewCore (enc : Encoder) (ws : Sink) (enab : Level -> bool)
  : v1_ioCore :=
  {| v1_enc := enc; v1_fields := []; v1_out := ws; v1_enab := enab |}.

(** A core is the list of ioCores it fans out to: [zapcore.NewTee()]
    with no core is the no-op core, and a tee of tees fans out to all
    their ioCores in order. *)
Definition v1_NewTee (cores : list (list v1_ioCore)) : list v1_ioCore :=
  concat cores.

(** A logger from [zap.New(core, AddCaller(), AddCallerSkip(1),
    ErrorOutput(stderr))]: no name, callers captured, no stack traces *)
Record v1_Logger := {
  v1_core : list v1_ioCore;
  v1_callerSkip : Z
}.

Record v1_Manager := { v1_Zap : v1_Logger }.

(** [log.With(fields...)]: every ioCore of the tee gets the fields *)
Definition v1_Logger_With (lg : v1_Logger) (fs : list Field) : v1_Logger :=
  match fs with
  | [] => lg
  | _ =>
      {| v1_core :=
           map (fun c => {| v1_enc := v1_enc c;
                            v1_fields := (v1_fields c ++ fs)%list;
                            v1_out := v1_out c; v1_enab := v1_enab c |})
             (v1_core lg);
         v1_callerSkip := v1_callerSkip lg |}
  end.

(** A leveled call on the logger: when some ioCore lets the level
    through, the entry is stamped once (a caller that cannot be found is
    reported on the error output, which is standard-error) and written
    by every such ioCore, in order; then the terminal behaviour of the
    level runs. *)
Definition v1_Logger_log (lg : v1_Logger) (lvl : Level) (msg : string)
    (fs : list Field) (w : World) : World * result unit :=
  let ent := {| ELevel := lvl; ETime := clock w; LoggerName := "";
                Message := msg;
                Caller := caller_at w (v1_callerSkip lg);
                Stack := None |} in
  let checked :=
    if existsb (fun c => v1_enab c lvl) (v1_core lg) then
      match caller_at w (v1_callerSkip lg) with
      | Some _ => w
      | None =>
          set_check_errors (check_errors w ++ [(Stderr, clock w)])%list w
      end
    else w in
  (fold_left
     (fun w' c =>
        if v1_enab c lvl
        then sink_write (v1_out c)
               {| w_enc := v1_enc c; w_entry := ent;
                  w_fields := (v1_fields c ++ fs)%list |} w'
        else w')
     (v1_core lg) checked,
   terminal lvl msg).

(** [for _, f := range opts { f(opt) }] over the default struct *)
Definition v1_apply_opts (opts : list v1_Option) : v1_option :=
  fold_left (fun o f => f o) opts v1_default_option.

(** New of the earlier version.  [rotatelogs.New] is given no option
    there: the max age is left unset and the rotation time is the
    library's 24 hours. *)
Definition v1_New (opts : list v1_Option) : option v1_Manager * error :=
  let opt := v1_apply_opts opts in
  let jsonEncoder := JSONEncoder (v1_encoderConfig opt) in
  (* lowPriority usd by info\debug\warn *)
  let lowPriority := fun lvl => (v1_level opt <=? lvl) && (lvl <? ErrorLevel) in
  (* highPriority usd by error\panic\fatal *)
  let highPriority :=
    fun lvl => (v1_level opt <=? lvl) && (ErrorLevel <=? lvl) in
  let core := v1_NewTee [] in
  let core :=
    if String.eqb (v1_driver opt) "stdout"
    then v1_NewTee [[v1_NewCore jsonEncoder Stdout lowPriority];
                    [v1_NewCore jsonEncoder Stderr highPriority]]
    else core in
  let finish (core : list v1_ioCore) :=
    (Some {| v1_Zap := {| v1_core := core; v1_callerSkip := 1 |} |}, None) in
  if String.eqb (v1_driver opt) "file" then
    match rotatelogs_New (v1_logPath opt ++ "%Y-%m-%d.log")%string
            0 (24 * Hour) with
    | inr err => (None, Some err)
    | inl hook =>
        finish
          (v1_NewTee
             [core;
              [v1_NewCore jsonEncoder (Rotating hook)
                 (fun lvl => v1_level opt <=? lvl)]])
    end
  else finish core.

Definition v1_getLoggerWithTraceID (m : v1_Manager) (ctx : context.Context)
  : v1_Logger :=
  let traceID := getTraceIDFromContext ctx in
  if negb (String.eqb traceID "")
  then v1_Logger_With (v1_Zap m) [zap_String "TraceID" traceID]
  else v1_Zap m.

(** The common body of [Info], [Error], [Debug], [Warn], [Fatal] and
    [Panic] *)
Definition v1_leveled (lvl : Level) (m : v1_Manager) (ctx : context.Context)
    (msg : string) (fields : list Field) (w : World) : World * result unit :=
  v1_Logger_log (v1_getLoggerWithTraceID m ctx) lvl msg fields w.

(** ** Flushing *)

(** Sync flushes any buffered log entries.  The logger asks its core,
    the core its write syncer: a standard stream is an [*os.File] and
    answers with what the operating system says ([os_sync]); the
    rotation hook has no Sync method, so zapcore.AddSync wrapped it and
    the wrapper answers nil. *)
Definition Sync (m : ManagerPtr) (os_sync : Sink -> error) (w : World)
  : result error :=
  do mg <- load m w;
  Ret (match c_out (l_core (Zap mg)) with
       | Rotating _ => None
       | s => os_sync s
       end).

(** ** Plain ASCII text *)

Fixpoint ascii_only (s : string) : bool :=
  match s with
  | EmptyString => true
  | String c rest => (json.code c <? 128)%N && ascii_only rest
  end.

(** * Properties *)

(** ** The JSON encoder and its reader *)

(** ** Strings *)

Lemma sapp_nil_l (s : string) : ("" ++ s)%string = s.
Proof. reflexivity. Qed.

Lemma sapp_cons c (a b : string) :
  (String c a ++ b)%string = String c (a ++ b)%string.
Proof. reflexivity. Qed.

Lemma sapp_nil_r (s : string) : (s ++ "")%string = s.
Proof. induction s as [|c s IH]; [done|]. by rewrite sapp_cons, IH. Qed.

Lemma sapp_assoc (a b c : string) :
  ((a ++ b) ++ c)%string = (a ++ (b ++ c))%string.
Proof. induction a as [|x a IH]; [done|]. by rewrite !sapp_cons, IH. Qed.

Lemma snoc_app acc c s :
  (json.snoc acc c ++ s)%string = (acc ++ String c s)%string.
Proof. unfold json.snoc. by rewrite sapp_assoc. Qed.

(** ** The reader *)

Lemma run_app st a b : json.run st (a ++ b) = json.run (json.run st a) b.
Proof.
  revert st. induction a as [|c a IH]; intros st; [done|].
  rewrite sapp_cons. simpl. apply IH.
Qed.

Lemma run_cons st c s : json.run st (String c s) = json.run (json.step st c) s.
Proof. reflexivity. Qed.

Lemma step_plain p acc c :
  plain_byte c = true ->
  json.step (json.InString p acc) c = json.InString p (json.snoc acc c).
Proof.
  unfold plain_byte, json.step. intros H.
  apply andb_prop in H as [H H3]. apply andb_prop in H as [H1 H2].
  apply negb_true_iff in H2, H3. rewrite H2, H3.
  apply N.leb_le in H1.
  destruct (N.ltb_spec (json.code c) 32); [lia|done].
Qed.

Lemma high_plain c : (128 <= json.code c)%N -> plain_byte c = true.
Proof.
  intros H. unfold plain_byte.
  destruct (N.leb_spec 32 (json.code c)); [|lia].
  destruct (N.eqb_spec (json.code c) 34); [lia|].
  destruct (N.eqb_spec (json.code c) 92); [lia|]. done.
Qed.

Lemma run_plain p acc s :
  plain s = true ->
  json.run (json.InString p acc) s = json.InString p (acc ++ s).
Proof.
  revert acc. induction s as [|c s IH]; intros acc H.
  - by rewrite sapp_nil_r.
  - simpl in H. apply andb_prop in H as [Hc Hs].
    rewrite run_cons, (step_plain _ _ _ Hc), (IH _ Hs). by rewrite snoc_app.
Qed.

Lemma plain_app a b : plain (a ++ b) = plain a && plain b.
Proof.
  induction a as [|c a IH]; [done|].
  rewrite sapp_cons. simpl. by rewrite IH, andb_assoc.
Qed.

Lemma run_escape_byte p acc c :
  (json.code c < 128)%N ->
  json.run (json.InString p acc) (json.escape_byte c) =
    json.InString p (json.snoc acc c).
Proof.
  destruct c as [b0 b1 b2 b3 b4 b5 b6 b7].
  destruct b7; [intros H; vm_compute in H; destruct b0, b1, b2, b3, b4, b5, b6; discriminate|].
  intros _.
  destruct b0, b1, b2, b3, b4, b5, b6; reflexivity.
Qed.

Lemma run_replacement p acc :
  json.run (json.InString p acc) json.replacement_escape =
    json.InString p (acc ++ json.replacement_bytes).
Proof. reflexivity. Qed.

Lemma starts_in_high lo hi s :
  (128 <= lo)%N -> json.starts_in lo hi s = true ->
  exists c r, s = String c r /\ (128 <= json.code c)%N.
Proof.
  intros Hlo H. destruct s as [|c r]; [done|]. exists c, r. split; [done|].
  simpl in H. apply andb_prop in H as [H _]. apply N.leb_le in H. lia.
Qed.

Lemma seq3_conts lo hi r k :
  (128 <= lo)%N -> json.seq3 lo hi r = S k -> conts k r = true.
Proof.
  intros Hlo. unfold json.seq3.
  destruct (json.starts_in lo hi r) eqn:E1; [|done].
  destruct (json.starts_in 128 191 (json.behead r)) eqn:E2; [|done].
  intros [= <-].
  destruct (starts_in_high _ _ _ Hlo E1) as (c1 & r1 & -> & H1).
  simpl in E2.
  destruct (starts_in_high _ _ _ (N.le_refl _) E2) as (c2 & r2 & -> & H2).
  simpl. apply N.leb_le in H1, H2. by rewrite H1, H2.
Qed.

Lemma seq4_conts lo hi r k :
  (128 <= lo)%N -> json.seq4 lo hi r = S k -> conts k r = true.
Proof.
  intros Hlo. unfold json.seq4.
  destruct (json.starts_in lo hi r) eqn:E1; [|done].
  destruct (json.starts_in 128 191 (json.behead r)) eqn:E2; [|done].
  destruct (json.starts_in 128 191 (json.behead (json.behead r))) eqn:E3;
    [|done].
  intros [= <-].
  destruct (starts_in_high _ _ _ Hlo E1) as (c1 & r1 & -> & H1).
  simpl in E2, E3.
  destruct (starts_in_high _ _ _ (N.le_refl _) E2) as (c2 & r2 & -> & H2).
  simpl in E3.
  destruct (starts_in_high _ _ _ (N.le_refl _) E3) as (c3 & r3 & -> & H3).
  simpl. apply N.leb_le in H1, H2, H3. by rewrite H1, H2, H3.
Qed.

Lemma rune_len_conts c r k :
  (128 <= json.code c)%N ->
  json.rune_len (String c r) = S k -> conts k r = true.
Proof.
  intros Hc. unfold json.rune_len.
  destruct (N.ltb_spec (json.code c) 128); [lia|].
  destruct (json.code c <? 194)%N; [done|].
  destruct (json.code c <=? 223)%N.
  { destruct (json.starts_in 128 191 r) eqn:E; [|done]. intros [= <-].
    destruct (starts_in_high _ _ _ (N.le_refl _) E) as (c1 & r1 & -> & H1).
    simpl. apply N.leb_le in H1. by rewrite H1. }
  destruct (json.code c =? 224)%N; [by apply seq3_conts|].
  destruct (json.code c =? 237)%N; [by apply seq3_conts|].
  destruct (json.code c <=? 239)%N; [by apply seq3_conts|].
  destruct (json.code c =? 240)%N; [by apply seq4_conts|].
  destruct (json.code c <=? 243)%N; [by apply seq4_conts|].
  destruct (json.code c =? 244)%N; [by apply seq4_conts|].
  done.
Qed.

Lemma safeAddString_from_0 c s :
  json.safeAddString_from 0 (String c s) =
    if (json.code c <? 128)%N
    then (json.escape_byte c ++ json.safeAddString_from 0 s)%string
    else match json.rune_len (String c s) with
         | O => (json.replacement_escape ++ json.safeAddString_from 0 s)%string
         | S k => String c (json.safeAddString_from k s)
         end.
Proof. reflexivity. Qed.

Lemma scrub_from_0 c s :
  json.scrub_from 0 (String c s) =
    if (json.code c <? 128)%N then String c (json.scrub_from 0 s)
    else match json.rune_len (String c s) with
         | O => (json.replacement_bytes ++ json.scrub_from 0 s)%string
         | S k => String c (json.scrub_from k s)
         end.
Proof. reflexivity. Qed.

(** Reading back what [safeAddString] wrote gives the scrubbed text. *)
Lemma run_safeAddString_from p s : forall skip acc,
  conts skip s = true ->
  json.run (json.InString p acc) (json.safeAddString_from skip s) =
    json.InString p (acc ++ json.scrub_from skip s).
Proof.
  induction s as [|c s IH]; intros skip acc Hk.
  - destruct skip; [|done]. simpl. by rewrite sapp_nil_r.
  - destruct skip as [|k].
    + rewrite safeAddString_from_0, scrub_from_0.
      destruct (N.ltb_spec (json.code c) 128) as [Hlt|Hge].
      * rewrite run_app, (run_escape_byte _ _ _ Hlt), (IH 0%nat _ eq_refl).
        by rewrite snoc_app.
      * destruct (json.rune_len (String c s)) as [|k] eqn:E.
        -- rewrite run_app, run_replacement, (IH 0%nat _ eq_refl).
           by rewrite sapp_assoc.
        -- rewrite run_cons, (step_plain _ _ _ (high_plain _ Hge)).
           rewrite (IH k _ (rune_len_conts _ _ _ Hge E)).
           by rewrite snoc_app.
    + simpl in Hk. apply andb_prop in Hk as [Hc Hk]. apply N.leb_le in Hc.
      change (json.safeAddString_from (S k) (String c s))
        with (String c (json.safeAddString_from k s)).
      change (json.scrub_from (S k) (String c s))
        with (String c (json.scrub_from k s)).
      rewrite run_cons, (step_plain _ _ _ (high_plain _ Hc)), (IH k _ Hk).
      by rewrite snoc_app.
Qed.

Lemma run_safeAddString p acc s :
  json.run (json.InString p acc) (json.safeAddString s) =
    json.InString p (acc ++ json.scrub s).
Proof. by apply run_safeAddString_from. Qed.

(** ** Integers *)

Lemma uint_rev_rev u : Decimal.rev (Decimal.rev u) = u.
Proof.
  apply DecimalFacts.to_list_inj.
  rewrite !DecimalFacts.rev_spec. apply rev_involutive.
Qed.

Lemma nzhead_not_D0 u v : Decimal.nzhead u <> Decimal.D0 v.
Proof. induction u; simpl; congruence. Qed.

Lemma to_uint_not_D0 p v : Pos.to_uint p <> Decimal.D0 v.
Proof.
  intros E.
  pose proof (DecimalPos.Unsigned.to_of (Pos.to_uint p)) as H.
  rewrite DecimalPos.Unsigned.of_to in H. simpl in H.
  rewrite E, DecimalFacts.unorm_D0 in H.
  unfold Decimal.unorm in H.
  destruct (Decimal.nzhead v) eqn:Ev; try discriminate H.
  - injection H as ->. by apply (DecimalPos.Unsigned.to_uint_nonzero p).
  - by apply (nzhead_not_D0 v u).
Qed.

Lemma close_number_pos p :
  json.close_number false (Decimal.rev (Pos.to_uint p)) = Some (Z.pos p) /\
  json.close_number true (Decimal.rev (Pos.to_uint p)) = Some (Z.neg p).
Proof.
  unfold json.close_number. rewrite uint_rev_rev.
  pose proof (DecimalPos.Unsigned.of_to p) as Hof.
  destruct (Pos.to_uint p) as [|u|u|u|u|u|u|u|u|u|u] eqn:E;
    [by destruct (DecimalPos.Unsigned.to_uint_nonnil p)
    |by destruct (to_uint_not_D0 p u)
    |cbv iota; unfold Z.of_int, Z.of_uint; rewrite Hof; done ..].
Qed.

Lemma run_digits obj key neg u : forall ds,
  json.run (json.Number obj key neg ds)
    (DecimalString.NilEmpty.string_of_uint u) =
  json.Number obj key neg (Decimal.revapp u ds).
Proof. induction u; intros ds; simpl; [done | apply IHu ..]. Qed.

Lemma delimiter_comma : delimiter ",".
Proof. by left. Qed.

Lemma delimiter_brace : delimiter "}".
Proof. by right. Qed.

Lemma delimiter_cases c :
  delimiter c -> c = ascii_of_N 44 \/ c = ascii_of_N 125.
Proof.
  intros [H|H]; [left|right]; rewrite <- H; unfold json.code;
    by rewrite ascii_N_embedding.
Qed.

Lemma run_first_digits obj key u :
  u <> Decimal.Nil ->
  json.run (json.Value obj key) (DecimalString.NilEmpty.string_of_uint u) =
  json.Number obj key false (Decimal.rev u).
Proof.
  intros Hu. destruct u; try done;
    simpl; rewrite run_digits; reflexivity.
Qed.

Lemma run_AppendInt obj key n c rest :
  delimiter c ->
  json.run (json.Value obj key) (json.AppendInt n ++ String c rest) =
  json.run (json.after (obj ++ [(key, json.JNumber n)]) c) rest.
Proof.
  intros Hc. rewrite run_app, run_cons. f_equal.
  unfold json.AppendInt.
  destruct n as [|p|p]; simpl Z.to_int; cbv iota.
  - destruct (delimiter_cases _ Hc) as [-> | ->]; reflexivity.
  - rewrite run_first_digits by apply DecimalPos.Unsigned.to_uint_nonnil.
    unfold json.step.
    destruct (delimiter_cases _ Hc) as [-> | ->]; simpl uint_of_char;
      cbv iota; by rewrite (proj1 (close_number_pos p)).
  - rewrite run_cons.
    change (json.step (json.Value obj key) "-")
      with (json.Number obj key true Decimal.Nil).
    rewrite run_digits.
    change (Decimal.revapp (Pos.to_uint p) Decimal.Nil)
      with (Decimal.rev (Pos.to_uint p)).
    unfold json.step.
    destruct (delimiter_cases _ Hc) as [-> | ->]; simpl uint_of_char;
      cbv iota; by rewrite (proj2 (close_number_pos p)).
Qed.

(** ** Members and lines *)

(** appends pushed to the right, literals peeled to their characters *)
Ltac snorm :=
  repeat (rewrite sapp_assoc || rewrite sapp_cons || rewrite sapp_nil_l).

Lemma step_quote p acc :
  json.step (json.InString p acc) json.quote = json.close_string p acc.
Proof. reflexivity. Qed.

Lemma run_quoted p acc s rest :
  json.run (json.InString p acc)
    (json.safeAddString s ++ String json.quote rest) =
  json.run (json.close_string p (acc ++ json.scrub s)) rest.
Proof. by rewrite run_app, run_safeAddString, run_cons, step_quote. Qed.

Lemma run_item obj key v c rest :
  item_ok v = true -> delimiter c ->
  json.run (json.Value obj key) (json.write_item v ++ String c rest) =
  json.run (json.after (obj ++ [(key, json.read_item v)]) c) rest.
Proof.
  intros Hv Hc. destruct v as [s|s|n|b]; simpl json.write_item.
  - snorm. rewrite run_cons.
    change (json.step (json.Value obj key) json.quote)
      with (json.InString (json.AsValue obj key) "").
    by rewrite run_quoted.
  - snorm. rewrite run_cons.
    change (json.step (json.Value obj key) json.quote)
      with (json.InString (json.AsValue obj key) "").
    by rewrite run_app, (run_plain _ _ _ Hv), run_cons, step_quote.
  - by apply run_AppendInt.
  - destruct (delimiter_cases _ Hc) as [-> | ->]; destruct b; reflexivity.
Qed.

Lemma step_at_key st obj :
  at_key st obj ->
  json.step st json.quote = json.InString (json.AsKey obj) "".
Proof. by intros [-> | [-> ->]]. Qed.

Lemma step_colon obj key :
  json.step (json.Colon obj key) ":" = json.Value obj key.
Proof. reflexivity. Qed.

Lemma run_member st obj m c rest :
  at_key st obj -> item_ok (snd m) = true -> delimiter c ->
  json.run st (json.write_member m ++ String c rest) =
  json.run (json.after (obj ++ [json.read_member m]) c) rest.
Proof.
  intros Hst Hv Hc. unfold json.write_member. snorm.
  rewrite run_cons, (step_at_key _ _ Hst), run_quoted.
  simpl json.close_string. rewrite sapp_nil_l, run_cons, step_colon.
  by rewrite (run_item _ _ _ _ _ Hv Hc).
Qed.

Lemma run_members ms : forall st obj rest,
  ms <> [] -> at_key st obj -> forallb (fun m => item_ok (snd m)) ms = true ->
  json.run st (json.write_members ms ++ String "}" rest) =
  json.run (json.Closed (obj ++ map json.read_member ms)) rest.
Proof.
  induction ms as [|m ms IH]; intros st obj rest Hne Hst Hok; [done|].
  simpl in Hok. apply andb_prop in Hok as [Hm Hok].
  destruct ms as [|m' ms].
  - simpl json.write_members.
    by rewrite (run_member _ _ _ _ _ Hst Hm delimiter_brace).
  - change (json.write_members (m :: m' :: ms))
      with (json.write_member m ++ "," ++ json.write_members (m' :: ms))%string.
    snorm. rewrite (run_member _ _ _ _ _ Hst Hm delimiter_comma).
    change (json.after (obj ++ [json.read_member m]) ",")
      with (json.Next (obj ++ [json.read_member m])).
    rewrite (IH _ (obj ++ [json.read_member m])%list rest);
      [|done|by left|done].
    by rewrite <- app_assoc.
Qed.

(** A line written for a list of members parses to what a reader
    gets for each of them, in order. *)
Lemma parse_line ms :
  forallb (fun m => item_ok (snd m)) ms = true ->
  json.parse ("{" ++ json.write_members ms ++ "}" ++ DefaultLineEnding) =
    Some (map json.read_member ms).
Proof.
  intros Hok. unfold json.parse.
  rewrite sapp_cons, sapp_nil_l, run_cons.
  change (json.step json.Start "{") with json.Open.
  destruct ms as [|m ms].
  - reflexivity.
  - snorm.
    rewrite (run_members (m :: ms) json.Open [] _); [|done|by right|done].
    reflexivity.
Qed.

(** ** Times and whole entries *)

Lemma plain_digit n : plain_byte (strftime.digit n) = true.
Proof.
  unfold strftime.digit.
  assert (H : (Z.to_nat (n mod 10) < 10)%nat)
    by (pose proof (Z.mod_pos_bound n 10); lia).
  destruct (Z.to_nat (n mod 10)) as [|[|[|[|[|[|[|[|[|[|k]]]]]]]]]];
    try reflexivity; lia.
Qed.

Lemma plain_digits w : forall n, plain (strftime.digits w n) = true.
Proof.
  induction w as [|w IH]; intros n; [done|].
  change (strftime.digits (S w) n)
    with (strftime.digits w (n / 10) ++ String (strftime.digit n) "")%string.
  rewrite plain_app, IH.
  change (plain (String (strftime.digit n) ""))
    with (plain_byte (strftime.digit n) && true).
  by rewrite plain_digit.
Qed.

Lemma plain_zone_text z : plain (json.zone_text z) = true.
Proof.
  unfold json.zone_text. destruct (z =? 0); [done|].
  rewrite !plain_app, !plain_digits. by destruct (z <? 0).
Qed.

Lemma plain_ISO8601 t : plain (json.ISO8601 t) = true.
Proof.
  unfold json.ISO8601.
  by rewrite !plain_app, !plain_digits, plain_zone_text.
Qed.

Lemma members_ok cfg ent fs :
  forallb (fun m => item_ok (snd m)) (json.members cfg ent fs) = true.
Proof.
  unfold json.members. rewrite !forallb_app.
  repeat (apply andb_true_intro; split).
  - by destruct (json.nonempty _).
  - destruct (json.nonempty _); [|done].
    cbn [forallb snd item_ok]. by rewrite plain_ISO8601.
  - by destruct (_ && _).
  - destruct (Caller ent); [|done]. by destruct (json.nonempty _).
  - by destruct (json.nonempty _).
  - induction fs as [|f fs IH]; [done|]. simpl. rewrite IH.
    by destruct (Val f).
  - destruct (Stack ent); [|done]. by destruct (_ && _).
Qed.

(** Every line the JSON encoder writes under a configuration with the
    default line ending is one JSON object, and parsing it gives back
    the members that were written. *)
Lemma parse_EncodeEntry cfg ent fs :
  LineEnding cfg = DefaultLineEnding ->
  json.parse (json.EncodeEntry cfg ent fs) =
    Some (map json.read_member (json.members cfg ent fs)).
Proof.
  intros HL. unfold json.EncodeEntry. rewrite HL.
  apply parse_line, members_ok.
Qed.

(** ** Sinks *)

Lemma output_of_sink_write (s : Sink) (r : Written) (w : World) :
  output_of s (sink_write s r w) = (output_of s w ++ [r])%list.
Proof.
  destruct s as [| |h]; simpl; try reflexivity.
  unfold file_content, current_file; simpl.
  by rewrite lookup_insert_eq.
Qed.

Lemma sink_write_cells s r w : cells (sink_write s r w) = cells w.
Proof. by destruct s. Qed.

Lemma sink_write_managers s r w : managers (sink_write s r w) = managers w.
Proof. by destruct s. Qed.

Lemma report_caller_cells lg w : cells (report_caller lg w) = cells w.
Proof.
  unfold report_caller.
  destruct (l_addCaller lg); [destruct (caller_at _ _)|]; done.
Qed.

Lemma report_caller_managers lg w :
  managers (report_caller lg w) = managers w.
Proof.
  unfold report_caller.
  destruct (l_addCaller lg); [destruct (caller_at _ _)|]; done.
Qed.

Lemma report_caller_stdout lg w : stdout (report_caller lg w) = stdout w.
Proof.
  unfold report_caller.
  destruct (l_addCaller lg); [destruct (caller_at _ _)|]; done.
Qed.

Lemma report_caller_stderr lg w : stderr (report_caller lg w) = stderr w.
Proof.
  unfold report_caller.
  destruct (l_addCaller lg); [destruct (caller_at _ _)|]; done.
Qed.

Lemma report_caller_files lg w : files (report_caller lg w) = files w.
Proof.
  unfold report_caller.
  destruct (l_addCaller lg); [destruct (caller_at _ _)|]; done.
Qed.

Lemma report_caller_clock lg w : clock (report_caller lg w) = clock w.
Proof.
  unfold report_caller.
  destruct (l_addCaller lg); [destruct (caller_at _ _)|]; done.
Qed.

Lemma report_caller_frames lg w :
  frames_above (report_caller lg w) = frames_above w.
Proof.
  unfold report_caller.
  destruct (l_addCaller lg); [destruct (caller_at _ _)|]; done.
Qed.

Lemma output_of_report_caller s lg w :
  output_of s (report_caller lg w) = output_of s w.
Proof.
  destruct s as [| |h]; simpl.
  - apply report_caller_stdout.
  - apply report_caller_stderr.
  - unfold file_content, current_file.
    by rewrite report_caller_files, report_caller_clock.
Qed.


Lemma sink_write_clock s r w : clock (sink_write s r w) = clock w.
Proof. by destruct s. Qed.

Lemma sink_write_frames s r w :
  frames_above (sink_write s r w) = frames_above w.
Proof. by destruct s. Qed.

Lemma not_emits_refl (w : World) : ~ emits w w.
Proof.
  intros (s & r & H).
  apply (f_equal (@length Written)) in H.
  rewrite length_app in H. simpl in H. lia.
Qed.

(** ** Loggers *)

Lemma Logger_With_level lg fs :
  c_level (l_core (Logger_With lg fs)) = c_level (l_core lg).
Proof. by destruct fs. Qed.

Lemma Logger_With_out lg fs :
  c_out (l_core (Logger_With lg fs)) = c_out (l_core lg).
Proof. by destruct fs. Qed.

Lemma Logger_With_enc lg fs :
  c_enc (l_core (Logger_With lg fs)) = c_enc (l_core lg).
Proof. by destruct fs. Qed.


Lemma Logger_log_cells lg lvl msg fs w :
  cells (fst (Logger_log lg lvl msg fs w)) = cells w.
Proof.
  unfold Logger_log.
  destruct (AtomicLevel_Enabled _ _ _) as [[|]| |]; simpl; try done.
  unfold Core_Write. by rewrite sink_write_cells, report_caller_cells.
Qed.

Lemma Logger_log_managers lg lvl msg fs w :
  managers (fst (Logger_log lg lvl msg fs w)) = managers w.
Proof.
  unfold Logger_log.
  destruct (AtomicLevel_Enabled _ _ _) as [[|]| |]; simpl; try done.
  unfold Core_Write. by rewrite sink_write_managers, report_caller_managers.
Qed.

(** The level check: with the cell at [t], an entry at [lvl] is written
    exactly when [t <= lvl]. *)
Lemma Logger_log_gate lg p t lvl msg fs w :
  c_level (l_core lg) = Some p -> cells w !! p = Some t ->
  fst (Logger_log lg lvl msg fs w) =
    if t <=? lvl
    then Core_Write (l_core lg) (make_entry lg lvl msg w) fs
           (report_caller lg w)
    else w.
Proof.
  intros Hc Hp. unfold Logger_log, AtomicLevel_Enabled, AtomicLevel_Level.
  rewrite Hc. simpl. rewrite Hp. simpl. by destruct (t <=? lvl).
Qed.

(** ** The manager's methods leave the heap alone *)

Lemma leveled_cells lvl m ctx msg fs w :
  cells (fst (leveled lvl m ctx msg fs w)) = cells w.
Proof.
  unfold leveled. destruct (getLoggerWithTraceID m ctx w); simpl; try done.
  apply Logger_log_cells.
Qed.

Lemma leveled_managers lvl m ctx msg fs w :
  managers (fst (leveled lvl m ctx msg fs w)) = managers w.
Proof.
  unfold leveled. destruct (getLoggerWithTraceID m ctx w); simpl; try done.
  apply Logger_log_managers.
Qed.

Lemma load_ext m w w' : managers w' = managers w -> load m w' = load m w.
Proof. intros H. unfold load. by rewrite H. Qed.

Lemma getLogger_wired m w t ctx :
  wired m w t ->
  exists lg p, getLoggerWithTraceID m ctx w = Ret lg /\
    c_level (l_core lg) = Some p /\ cells w !! p = Some t.
Proof.
  intros (mg & p & Hl & _ & Hc & Hp).
  unfold getLoggerWithTraceID. rewrite Hl. simpl.
  destruct (String.eqb _ _); eexists _, p; split_and!; done.
Qed.

Lemma leveled_wired lvl m ctx msg fs w t :
  wired m w t -> wired m (fst (leveled lvl m ctx msg fs w)) t.
Proof.
  intros (mg & p & Hl & Hm & Hc & Hp). exists mg, p.
  rewrite (load_ext _ _ _ (leveled_managers _ _ _ _ _ _)), leveled_cells.
  done.
Qed.

Lemma SetLevel_wired m w t lvl :
  wired m w t ->
  snd (SetLevel m lvl w) = Ret tt /\ wired m (fst (SetLevel m lvl w)) lvl.
Proof.
  intros (mg & p & Hl & Hm & Hc & Hp).
  unfold SetLevel, AtomicLevel_SetLevel, AtomicLevel_Level.
  rewrite Hl, Hm, Hp. simpl. split; [done|].
  exists mg, p. split_and!; try done.
  simpl. apply lookup_insert_eq.
Qed.

Lemma run_wired m ops : forall w t,
  wired m w t -> wired m (run m ops w) (last_level ops t).
Proof.
  induction ops as [|o ops IH]; intros w t Hw; [done|].
  unfold run, last_level in *. simpl. apply IH.
  destruct o; simpl; try done.
  - by apply SetLevel_wired with (t := t).
  - by apply leveled_wired.
Qed.

Lemma leveled_gate m w t lvl ctx msg fs :
  wired m w t ->
  emits w (fst (leveled lvl m ctx msg fs w)) <-> t <= lvl.
Proof.
  intros Hw. destruct (getLogger_wired _ _ _ ctx Hw) as (lg & p & Hg & Hc & Hp).
  unfold leveled. rewrite Hg.
  rewrite (Logger_log_gate _ _ _ _ _ _ _ Hc Hp).
  destruct (Z.leb_spec t lvl) as [Hle|Hgt].
  - split; [done|]. intros _.
    exists (c_out (l_core lg)). eexists. unfold Core_Write.
    rewrite output_of_sink_write, output_of_report_caller. reflexivity.
  - split; [|lia]. intros H. by apply not_emits_refl in H.
Qed.

(** ** What [New] builds *)

Lemma apply_opts_app o1 o2 o :
  apply_opts (o1 ++ o2) o = do o' <- apply_opts o1 o; apply_opts o2 o'.
Proof.
  revert o. induction o1 as [|f o1 IH]; intros o; simpl; [done|].
  destruct (f o); simpl; auto.
Qed.

Lemma load_insert p mg w :
  load (Some p) (set_managers (<[p := mg]> (managers w)) w) = Ret mg.
Proof. unfold load. cbn [managers set_managers]. by rewrite lookup_insert_eq. Qed.

Lemma New_inv opts w w1 m :
  New opts w = (w1, Ret (m, None)) ->
  exists opt mg lc sink,
    apply_opts opts default_option = Ret opt /\
    load m w1 = Ret mg /\
    m_level mg = Some lc /\
    cells w1 !! lc = Some (level opt) /\
    Zap mg =
      zap_New
        (NewCore (if useColor opt then ConsoleEncoder (encoderConfig opt)
                  else JSONEncoder (encoderConfig opt)) sink (Some lc))
        (callerSkip opt) Stderr (stacktraceLevel opt) /\
    (driver opt = "stdout" /\ sink = Stdout \/
     driver opt = "file" /\ exists hook,
       rotatelogs_New (logPath opt ++ "%Y-%m-%d.log")%string
         (maxAge opt) (rotationTime opt) = inl hook /\
       sink = Rotating hook) /\
    stdout w1 = stdout w /\ stderr w1 = stderr w /\ files w1 = files w /\
    sink_date w1 = sink_date w.
Proof.
  unfold New, NewAtomicLevelAt, alloc_Manager.
  destruct (apply_opts opts default_option) as [opt| |]; try done.
  cbv beta iota zeta. set (lc := fresh (dom (cells w))).
  destruct (String.eqb_spec (driver opt) "stdout") as [Hd|Hd].
  - intros [= <- <-]. exists opt. eexists _, lc, Stdout.
    split_and!;
      [done | exact (load_insert _ _ (set_cells _ w)) | done
      | cbn [cells set_managers set_cells]; by rewrite lookup_insert_eq
      | done | by left | done ..].
  - destruct (String.eqb_spec (driver opt) "file") as [Hf|Hf]; [|done].
    unfold newFileCore.
    destruct (rotatelogs_New _ _ _) as [hook|err] eqn:Hr; [|done].
    intros [= <- <-]. exists opt. eexists _, lc, (Rotating hook).
    split_and!;
      [done | exact (load_insert _ _ (set_cells _ w)) | done
      | cbn [cells set_managers set_cells]; by rewrite lookup_insert_eq
      | done | right; eauto | done ..].
Qed.

Lemma New_wired opts w w1 m :
  New opts w = (w1, Ret (m, None)) ->
  exists opt, apply_opts opts default_option = Ret opt /\
    wired m w1 (level opt).
Proof.
  intros H. apply New_inv in H.
  destruct H as (opt & mg & lc & sink & Ho & Hl & Hm & Hc & Hz & _).
  exists opt. split; [done|]. exists mg, lc. split_and!; try done.
  by rewrite Hz.
Qed.

Lemma last_level_app ops1 ops2 t :
  last_level (ops1 ++ ops2) t = last_level ops2 (last_level ops1 t).
Proof. unfold last_level. by rewrite fold_left_app. Qed.

Lemma last_level_calls calls t :
  forallb (fun o => negb (is_SetLevel o)) calls = true ->
  last_level calls t = t.
Proof.
  revert t. induction calls as [|o calls IH]; intros t H; [done|].
  simpl in H. apply andb_prop in H as [Ho H].
  destruct o; try done; by apply IH.
Qed.

Lemma threshold_wired m w t : wired m w t -> threshold m w = Ret t.
Proof.
  intros (mg & p & Hl & Hm & _ & Hp). unfold threshold, AtomicLevel_Level.
  rewrite Hl. simpl. by rewrite Hm, Hp.
Qed.

(** C1. On a manager built by [New], after any run of operations, a
    leveled call at severity [lvl] emits a record if and only if [lvl]
    is at least the current threshold: the level the options chose, or
    the level of the latest [SetLevel].  In particular, after
    [SetLevel newLevel] every later call, until the next [SetLevel], is
    gated by [newLevel]. *)
Theorem C1_level_gate opts w0 w m :
  New opts w0 = (w, Ret (m, None)) ->
  exists opt, apply_opts opts default_option = Ret opt /\
    (forall ops lvl ctx msg fields,
        let w' := run m ops w in
        threshold m w' = Ret (last_level ops (level opt)) /\
        (emits w' (fst (leveled lvl m ctx msg fields w')) <->
         last_level ops (level opt) <= lvl)) /\
    (forall ops newLevel calls lvl ctx msg fields,
        forallb (fun o => negb (is_SetLevel o)) calls = true ->
        let w' := run m (ops ++ OpSetLevel newLevel :: calls) w in
        threshold m w' = Ret newLevel /\
        (emits w' (fst (leveled lvl m ctx msg fields w')) <->
         newLevel <= lvl)).
Proof.
  intros HN. destruct (New_wired _ _ _ _ HN) as (opt & Ho & Hw).
  exists opt. split; [done|].
  assert (Hall : forall ops lvl ctx msg fields,
    threshold m (run m ops w) = Ret (last_level ops (level opt)) /\
    (emits (run m ops w) (fst (leveled lvl m ctx msg fields (run m ops w)))
     <-> last_level ops (level opt) <= lvl)).
  { intros ops lvl ctx msg fields.
    pose proof (run_wired m ops _ _ Hw) as Hr.
    split; [by apply threshold_wired | by apply leveled_gate]. }
  split; [exact Hall|].
  intros ops newLevel calls lvl ctx msg fields Hcalls w'.
  specialize (Hall (ops ++ OpSetLevel newLevel :: calls)%list lvl ctx msg fields).
  rewrite last_level_app in Hall. simpl in Hall.
  change (last_level (OpSetLevel newLevel :: calls) (last_level ops (level opt)))
    with (last_level calls newLevel) in Hall.
  by rewrite (last_level_calls _ _ Hcalls) in Hall.
Qed.

(** ** Managers built by [New] *)

Lemma built_wired opt sink m w t : built opt sink m w t -> wired m w t.
Proof.
  intros (mg & lc & Hl & Hm & Hc & Hz). exists mg, lc.
  split_and!; try done. by rewrite Hz.
Qed.

Lemma New_built opts w w1 m :
  New opts w = (w1, Ret (m, None)) ->
  exists opt sink,
    apply_opts opts default_option = Ret opt /\
    built opt sink m w1 (level opt) /\
    (driver opt = "stdout" /\ sink = Stdout \/
     driver opt = "file" /\ exists hook,
       rotatelogs_New (logPath opt ++ "%Y-%m-%d.log")%string
         (maxAge opt) (rotationTime opt) = inl hook /\
       sink = Rotating hook).
Proof.
  intros H. apply New_inv in H.
  destruct H as (opt & mg & lc & sink & Ho & Hl & Hm & Hc & Hz & Hd & _).
  exists opt, sink. split_and!; try done. by exists mg, lc.
Qed.

Lemma step_built opt sink m o w t :
  built opt sink m w t ->
  built opt sink m (step m o w)
    (match o with OpSetLevel l => l | _ => t end).
Proof.
  intros Hb. pose proof Hb as (mg & lc & Hl & Hm & Hc & Hz).
  destruct o as [l|lvl ctx msg fs|n|fs|now]; simpl; try done.
  - exists mg, lc. unfold SetLevel, AtomicLevel_SetLevel, AtomicLevel_Level.
    rewrite Hl, Hm, Hc. simpl. split_and!; try done. apply lookup_insert_eq.
  - exists mg, lc.
    rewrite (load_ext _ _ _ (leveled_managers _ _ _ _ _ _)), leveled_cells.
    done.
Qed.

Lemma run_built opt sink m ops : forall w t,
  built opt sink m w t ->
  built opt sink m (run m ops w) (last_level ops t).
Proof.
  induction ops as [|o ops IH]; intros w t Hb; [done|].
  unfold run, last_level in *. simpl. apply IH.
  by apply step_built.
Qed.

(** One leveled call on a built manager, in full *)
Lemma leveled_built opt sink m w t lvl ctx msg fs :
  built opt sink m w t ->
  exists mg,
    load m w = Ret mg /\
    leveled lvl m ctx msg fs w =
      (if t <=? lvl
       then sink_write sink
              {| w_enc := encoder_of opt;
                 w_entry := make_entry (Zap mg) lvl msg w;
                 w_fields := (trace_fields ctx ++ fs)%list |}
              (report_caller (Zap mg) w)
       else w,
       terminal lvl msg).
Proof.
  intros (mg & lc & Hl & Hm & Hc & Hz). exists mg. split; [done|].
  unfold leveled, getLoggerWithTraceID, trace_fields. rewrite Hl. simpl.
  destruct (String.eqb _ "");
    unfold Logger_log, AtomicLevel_Enabled, AtomicLevel_Level;
    rewrite Hz; simpl; rewrite Hc; simpl; by destruct (t <=? lvl).
Qed.

Lemma output_of_sink_write_any s s0 r0 w :
  output_of s (sink_write s0 r0 w) = output_of s w \/
  output_of s (sink_write s0 r0 w) = (output_of s w ++ [r0])%list.
Proof.
  destruct s as [| |h], s0 as [| |h0]; simpl; auto.
  unfold file_content, current_file; simpl.
  set (f := strftime.FormatString _ (rl_pattern h) _).
  set (f0 := strftime.FormatString _ (rl_pattern h0) _).
  destruct (decide (f0 = f)) as [->|Hne].
  - right. by rewrite lookup_insert_eq.
  - left. by rewrite lookup_insert_ne.
Qed.

(** A sink that grew by one record across a write grew by that record. *)
Lemma emitted_unique s s0 r0 r w :
  output_of s (sink_write s0 r0 w) = (output_of s w ++ [r])%list -> r = r0.
Proof.
  intros H. destruct (output_of_sink_write_any s s0 r0 w) as [E|E];
    rewrite E in H.
  - apply (f_equal (@length Written)) in H.
    rewrite length_app in H. simpl in H. lia.
  - by apply app_inj_tail in H as [_ ->].
Qed.

(** The record a leveled call leaves behind, when it leaves one *)
Lemma leveled_emitted opt sink m w t lvl ctx msg fs s r :
  built opt sink m w t ->
  output_of s (fst (leveled lvl m ctx msg fs w)) = (output_of s w ++ [r])%list ->
  t <= lvl /\
  exists mg, load m w = Ret mg /\
    r = {| w_enc := encoder_of opt;
           w_entry := make_entry (Zap mg) lvl msg w;
           w_fields := (trace_fields ctx ++ fs)%list |}.
Proof.
  intros Hb H.
  destruct (leveled_built _ _ _ _ _ lvl ctx msg fs Hb) as (mg & Hl & E).
  rewrite E in H. simpl in H.
  destruct (Z.leb_spec t lvl) as [Hle|Hgt].
  - split; [done|]. exists mg. split; [done|].
    rewrite <- (output_of_report_caller s (Zap mg) w) in H.
    by apply emitted_unique in H.
  - apply (f_equal (@length Written)) in H.
    rewrite length_app in H. simpl in H. lia.
Qed.

(** ** Trace extraction *)

Lemma getTraceID_carries ctx v :
  carries_trace ctx v -> getTraceIDFromContext ctx = v.
Proof. intros [H _]. unfold getTraceIDFromContext. by rewrite H. Qed.

Lemma trace_fields_carries ctx v :
  carries_trace ctx v -> trace_fields ctx = [zap_String "TraceID" v].
Proof.
  intros H. unfold trace_fields. rewrite (getTraceID_carries _ _ H).
  destruct H as [_ Hv]. by destruct (String.eqb_spec v "").
Qed.

Lemma getTraceID_absent ctx :
  (forall v, ~ carries_trace ctx v) -> getTraceIDFromContext ctx = "".
Proof.
  intros H. unfold getTraceIDFromContext, carries_trace in *.
  destruct (context.Value ctx _) as [|s| | |]; simpl; try done.
  destruct (String.eqb_spec s "") as [->|Hs]; [done|].
  by destruct (H s).
Qed.

Lemma getLogger_absent m ctx w :
  getTraceIDFromContext ctx = "" ->
  getLoggerWithTraceID m ctx w = getLoggerWithTraceID m context.Background w.
Proof. intros H. unfold getLoggerWithTraceID. by rewrite H. Qed.

(** C2. On a manager built by [New], a record emitted by a leveled
    call whose context carries the non-empty string [v] under
    "trace_id" has the field TraceID = [v] (in front of the call's own
    fields); a record emitted with a context carrying no such value has
    exactly the call's own fields, so no TraceID field unless the
    caller passed one, and the whole call behaves as with an empty
    context. *)
Theorem C2_trace_enrichment opts w0 w m ops lvl ctx msg fields s r :
  New opts w0 = (w, Ret (m, None)) ->
  let w' := run m ops w in
  output_of s (fst (leveled lvl m ctx msg fields w')) =
    (output_of s w' ++ [r])%list ->
  (forall v, carries_trace ctx v ->
     In (zap_String "TraceID" v) (w_fields r) /\
     w_fields r = zap_String "TraceID" v :: fields) /\
  ((forall v, ~ carries_trace ctx v) ->
     w_fields r = fields /\
     ((forall f, In f fields -> Key f <> "TraceID") ->
      forall f, In f (w_fields r) -> Key f <> "TraceID") /\
     leveled lvl m ctx msg fields w' =
       leveled lvl m context.Background msg fields w').
Proof.
  intros HN w' Hout.
  destruct (New_built _ _ _ _ HN) as (opt & sink & Ho & Hb & _).
  pose proof (run_built _ _ m ops _ _ Hb) as Hb'. fold w' in Hb'.
  destruct (leveled_emitted _ _ _ _ _ _ _ _ _ _ _ Hb' Hout)
    as (_ & mg & _ & ->). simpl.
  split.
  - intros v Hv. rewrite (trace_fields_carries _ _ Hv). simpl. auto.
  - intros Hno. pose proof (getTraceID_absent _ Hno) as Hid.
    unfold trace_fields. rewrite Hid. simpl. split_and!; try done.
    unfold leveled. by rewrite (getLogger_absent _ _ _ Hid).
Qed.

(** C9. When the value under "trace_id" is not a string, trace
    extraction returns the empty string, the call is the very call made
    with an empty context, and on a manager built by [New] it returns
    as its level prescribes and any record it emits has exactly the
    call's own fields. *)
Theorem C9_non_string_trace ctx :
  snd (context.assert_string
         (context.Value ctx (context.Str TraceIDKey))) = false ->
  getTraceIDFromContext ctx = "" /\
  (forall lvl m msg fields w,
     leveled lvl m ctx msg fields w =
       leveled lvl m context.Background msg fields w) /\
  (forall opts w0 w m ops lvl msg fields,
     New opts w0 = (w, Ret (m, None)) ->
     let w' := run m ops w in
     snd (leveled lvl m ctx msg fields w') = terminal lvl msg /\
     forall s r,
       output_of s (fst (leveled lvl m ctx msg fields w')) =
         (output_of s w' ++ [r])%list ->
       w_fields r = fields).
Proof.
  intros Hns.
  assert (Hid : getTraceIDFromContext ctx = "").
  { unfold getTraceIDFromContext.
    destruct (context.assert_string _) as [tid ok]. simpl in Hns. by subst ok. }
  split; [done|]. split.
  - intros. unfold leveled. by rewrite (getLogger_absent _ _ _ Hid).
  - intros opts w0 w m ops lvl msg fields HN w'.
    destruct (New_built _ _ _ _ HN) as (opt & sink & Ho & Hb & _).
    pose proof (run_built _ _ m ops _ _ Hb) as Hb'. fold w' in Hb'.
    split.
    + destruct (leveled_built _ _ _ _ _ lvl ctx msg fields Hb') as (mg & _ & E).
      by rewrite E.
    + intros s r Hout.
      destruct (leveled_emitted _ _ _ _ _ _ _ _ _ _ _ Hb' Hout)
        as (_ & mg & _ & ->). simpl.
      unfold trace_fields. by rewrite Hid.
Qed.

(** ** Frame properties *)

Lemma SetLevel_managers m lvl w :
  managers (fst (SetLevel m lvl w)) = managers w.
Proof.
  unfold SetLevel, AtomicLevel_SetLevel.
  destruct (load m w) as [mg| |]; try done.
  destruct (AtomicLevel_Level _ _), (m_level mg); done.
Qed.

Lemma step_managers m o w : managers (step m o w) = managers w.
Proof.
  destruct o; simpl; try done.
  - apply SetLevel_managers.
  - apply leveled_managers.
Qed.

Lemma run_managers m ops : forall w, managers (run m ops w) = managers w.
Proof.
  induction ops as [|o ops IH]; intros w; [done|].
  unfold run in *. simpl. by rewrite IH, step_managers.
Qed.





(** ** Construction errors *)

(** C3. When the options apply cleanly and the driver they leave is
    neither "stdout" nor "file", or is "file" and the rotation sink
    cannot be opened, [New] returns a non-nil error and a nil Manager,
    and no Manager has been put on the heap nor anything written. *)
Theorem C3_construction_errors opts opt w :
  apply_opts opts default_option = Ret opt ->
  (driver opt <> "stdout" /\ driver opt <> "file") \/
  (driver opt = "file" /\ exists e,
     rotatelogs_New (logPath opt ++ "%Y-%m-%d.log")%string
       (maxAge opt) (rotationTime opt) = inr e) ->
  exists w1 err,
    New opts w = (w1, Ret (None, Some err)) /\
    managers w1 = managers w /\
    stdout w1 = stdout w /\ stderr w1 = stderr w /\ files w1 = files w.
Proof.
  intros Ho Hd. unfold New, NewAtomicLevelAt, alloc_Manager. rewrite Ho.
  cbv beta iota zeta.
  destruct Hd as [[H1 H2]|[H1 (e & He)]].
  - destruct (String.eqb_spec (driver opt) "stdout"); [done|].
    destruct (String.eqb_spec (driver opt) "file"); [done|].
    by eexists _, _.
  - destruct (String.eqb_spec (driver opt) "stdout") as [E|_];
      [by rewrite H1 in E|].
    destruct (String.eqb_spec (driver opt) "file"); [|done].
    unfold newFileCore. rewrite He. by eexists _, _.
Qed.


(** ** Where records go *)

(** C4 (amended). With driver "stdout" every admitted record, whatever
    its severity, is appended to standard-out; standard-error and the
    files are left as they were. *)
Theorem C4_stdout_driver opts opt w0 w m ops lvl ctx msg fields :
  New opts w0 = (w, Ret (m, None)) ->
  apply_opts opts default_option = Ret opt ->
  driver opt = "stdout" ->
  let w' := run m ops w in
  let w'' := fst (leveled lvl m ctx msg fields w') in
  last_level ops (level opt) <= lvl ->
  (exists r, stdout w'' = (stdout w' ++ [r])%list /\
             ELevel (w_entry r) = lvl /\ Message (w_entry r) = msg) /\
  stderr w'' = stderr w' /\ files w'' = files w'.
Proof.
  intros HN Ho Hd w' w'' Hle.
  destruct (New_built _ _ _ _ HN) as (opt' & sink & Ho' & Hb & Hs).
  rewrite Ho in Ho'. injection Ho' as <-.
  destruct Hs as [[_ ->]|[Hf _]]; [|by rewrite Hd in Hf].
  pose proof (run_built _ _ m ops _ _ Hb) as Hb'. fold w' in Hb'.
  destruct (leveled_built _ _ _ _ _ lvl ctx msg fields Hb') as (mg & _ & E).
  unfold w''. rewrite E. simpl.
  destruct (Z.leb_spec (last_level ops (level opt)) lvl); [|lia].
  cbn [fst sink_write set_stdout stdout stderr files].
  rewrite report_caller_stdout, report_caller_stderr, report_caller_files.
  split_and!; try done. by eexists.
Qed.

Lemma compile_String_literal c s :
  Ascii.eqb c "%" = false ->
  strftime.compile (String c s) =
    cons (strftime.Verbatim c) <$> strftime.compile s.
Proof.
  intros H.
  destruct c as [b0 b1 b2 b3 b4 b5 b6 b7].
  destruct b0, b1, b2, b3, b4, b5, b6, b7; done.
Qed.

Lemma compile_literal s t :
  literal s = true ->
  strftime.compile (s ++ t) = (app (verbatim s)) <$> strftime.compile t.
Proof.
  induction s as [|c s IH]; intros H.
  - change ("" ++ t)%string with t. by destruct (strftime.compile t).
  - cbn [literal] in H. apply andb_prop in H as [Hc Hs].
    apply negb_true_iff in Hc.
    change (String c s ++ t)%string with (String c (s ++ t)).
    rewrite (compile_String_literal _ _ Hc), (IH Hs).
    by destruct (strftime.compile t).
Qed.

Lemma known_verbatim s :
  forallb (strftime.known other_directive) (verbatim s) = true.
Proof. induction s; simpl; done. Qed.

Lemma FormatString_verbatim s ps d :
  strftime.FormatString other_directive (verbatim s ++ ps) d =
  (s ++ strftime.FormatString other_directive ps d)%string.
Proof.
  induction s as [|c s IH]; simpl; [done|].
  unfold strftime.FormatString in *. simpl. by rewrite IH.
Qed.

Lemma strftime_New_literal path :
  literal path = true ->
  strftime.New other_directive (path ++ "%Y-%m-%d.log") =
    Some (verbatim path ++ date_pieces)%list.
Proof.
  intros H. unfold strftime.New. rewrite (compile_literal _ _ H). simpl.
  rewrite forallb_app, known_verbatim. reflexivity.
Qed.

Lemma current_file_literal path a r h w :
  literal path = true ->
  rotatelogs_New (path ++ "%Y-%m-%d.log")%string a r = inl h ->
  current_file h w =
    dated_file path (Truncate_date (if r <? 0 then 0 else r) (clock w)).
Proof.
  intros H. unfold rotatelogs_New. rewrite (strftime_New_literal _ H).
  intros [= <-]. unfold current_file. cbn [rl_pattern rl_rotationTime].
  rewrite FormatString_verbatim. reflexivity.
Qed.

(** With the library's rotation time the file is the one of [sink_date]. *)
Lemma current_file_daily path a h w :
  literal path = true ->
  rotatelogs_New (path ++ "%Y-%m-%d.log")%string a (24 * Hour) = inl h ->
  current_file h w = dated_file path (sink_date w).
Proof. intros H Hh. by rewrite (current_file_literal _ _ _ _ w H Hh). Qed.

(** Truncating to a duration that divides a day, or to none at all,
    stays on the same day. *)
Lemma Truncate_date_same_day d t :
  d <= 0 \/ (24 * Hour) mod d = 0 ->
  0 <= time_of_day t ->
  Truncate_date d t = t_date t.
Proof.
  intros Hd Ht. unfold Truncate_date.
  destruct (Z.leb_spec d 0) as [|Hpos]; [done|].
  destruct Hd as [|Hd]; [lia|].
  set (D := 24 * Hour) in *.
  assert (Hr : (day_number (t_date t) * D + time_of_day t) mod d =
               time_of_day t mod d).
  { rewrite Z.add_mod, Z.mul_mod, Hd by lia.
    rewrite Z.mul_0_r, Z.mod_0_l, Z.add_0_l, Z.mod_mod by lia. done. }
  rewrite Hr.
  assert (Hle : time_of_day t mod d <= time_of_day t)
    by (apply Z.mod_le; lia).
  assert (HD : 0 < D) by (unfold D, Hour, Minute, Second, Nanosecond; lia).
  assert (Hq : 0 <= (time_of_day t - time_of_day t mod d) / D)
    by (apply Z.div_pos; lia).
  replace (Z.to_nat (- ((time_of_day t - time_of_day t mod d) / D)))
    with 0%nat by lia.
  reflexivity.
Qed.

Lemma sink_date_clock w :
  0 <= time_of_day (clock w) -> sink_date w = t_date (clock w).
Proof.
  intros H. unfold sink_date. apply Truncate_date_same_day; [|done].
  right. apply Z.mod_same. unfold Hour, Minute, Second, Nanosecond. lia.
Qed.


(** ** What a record looks like on the wire *)

(** The record a leveled call leaves behind on a built manager, with
    the entry spelled out *)
Lemma leveled_emitted_entry opt sink m w t lvl ctx msg fs s r :
  built opt sink m w t ->
  output_of s (fst (leveled lvl m ctx msg fs w)) = (output_of s w ++ [r])%list ->
  r = {| w_enc := encoder_of opt;
         w_entry := {|
           ELevel := lvl; ETime := clock w; LoggerName := "";
           Message := msg;
           Caller := caller_at w (callerSkip opt);
           Stack := match caller_at w (callerSkip opt) with
                    | Some _ => if stacktraceLevel opt <=? lvl
                                then Some (stack_trace w) else None
                    | None => None
                    end |};
         w_fields := (trace_fields ctx ++ fs)%list |}.
Proof.
  intros Hb Hout. pose proof Hb as (mg' & lc & Hl' & _ & _ & Hz).
  destruct (leveled_emitted _ _ _ _ _ _ _ _ _ _ _ Hb Hout)
    as (_ & mg & Hl & ->).
  rewrite Hl in Hl'. injection Hl' as ->.
  unfold make_entry. by rewrite Hz.
Qed.

(** C5. With the JSON encoder over the default encoder configuration
    (what [New] sets up unless colour or another configuration is asked
    for), every record a leveled call emits is serialised as one line
    that parses as a JSON object, holding the members the encoder wrote
    in their order; for an Info call without fields of its own, the
    object has "INFO" under the level key "L" and the message under the
    message key "M". *)
Theorem C5_json_records opts opt w0 w m ops lvl ctx msg fields s r :
  New opts w0 = (w, Ret (m, None)) ->
  apply_opts opts default_option = Ret opt ->
  useColor opt = false ->
  encoderConfig opt = DefaultEncoderConfig ->
  let w' := run m ops w in
  output_of s (fst (leveled lvl m ctx msg fields w')) =
    (output_of s w' ++ [r])%list ->
  w_enc r = JSONEncoder DefaultEncoderConfig /\
  exists obj,
    json.parse
      (json.EncodeEntry DefaultEncoderConfig (w_entry r) (w_fields r)) =
      Some obj /\
    obj = map json.read_member
            (json.members DefaultEncoderConfig (w_entry r) (w_fields r)) /\
    (lvl = InfoLevel -> fields = [] ->
     json.get "L" obj = Some (json.JString "INFO") /\
     json.get "M" obj = Some (json.JString (json.scrub msg)) /\
     (msg = "This is an info message" ->
      json.get "M" obj = Some (json.JString "This is an info message"))).
Proof.
  intros HN Ho Hcol Hcfg w' Hout.
  destruct (New_built _ _ _ _ HN) as (opt' & sink & Ho' & Hb & _).
  rewrite Ho in Ho'. injection Ho' as <-.
  pose proof (run_built _ _ m ops _ _ Hb) as Hb'. fold w' in Hb'.
  rewrite (leveled_emitted_entry _ _ _ _ _ _ _ _ _ _ _ Hb' Hout).
  unfold encoder_of. rewrite Hcol, Hcfg. cbn [w_enc w_entry w_fields].
  split; [done|]. eexists. split; [by apply parse_EncodeEntry|].
  split; [done|]. intros -> ->.
  assert (HLM : forall x,
    json.get "L"
      (map json.read_member
         (json.members DefaultEncoderConfig
            {| ELevel := InfoLevel; ETime := clock w'; LoggerName := "";
               Message := x;
               Caller := caller_at w' (callerSkip opt);
               Stack := match caller_at w' (callerSkip opt) with
                        | Some _ => if stacktraceLevel opt <=? InfoLevel
                                    then Some (stack_trace w') else None
                        | None => None
                        end |}
            (trace_fields ctx ++ [])%list)) =
      Some (json.JString "INFO") /\
    json.get "M"
      (map json.read_member
         (json.members DefaultEncoderConfig
            {| ELevel := InfoLevel; ETime := clock w'; LoggerName := "";
               Message := x;
               Caller := caller_at w' (callerSkip opt);
               Stack := match caller_at w' (callerSkip opt) with
                        | Some _ => if stacktraceLevel opt <=? InfoLevel
                                    then Some (stack_trace w') else None
                        | None => None
                        end |}
            (trace_fields ctx ++ [])%list)) =
      Some (json.JString (json.scrub x))).
  { intros x. unfold json.members, trace_fields.
    cbn [ELevel ETime LoggerName Message Caller Stack DefaultEncoderConfig
         LevelKey TimeKey NameKey CallerKey MessageKey StacktraceKey
         EncodeLevel].
    destruct (String.eqb (getTraceIDFromContext ctx) "");
      destruct (caller_at w' (callerSkip opt));
      destruct (stacktraceLevel opt <=? InfoLevel);
      try destruct (json.nonempty (stack_trace w')); split; reflexivity. }
  destruct (HLM msg) as [HL HM]. split_and!; try done.
  intros ->. exact HM.
Qed.

(** ** Options *)

Lemma parse_level_name_None name :
  ~ In name ["debug"; "info"; "warn"; "error"; "dpanic"; "panic"; "fatal"] ->
  parse_level_name name = None.
Proof.
  intros H. unfold parse_level_name.
  repeat match goal with
  | |- context [String.eqb name ?s] =>
      destruct (String.eqb_spec name s) as [->|_];
        [exfalso; apply H; simpl; tauto|]
  end.
  reflexivity.
Qed.

(** C7. A level name outside debug, info, warn, error, dpanic, panic,
    fatal makes [WithLevel] and [WithStacktraceLevel] panic, and [New]
    panic with them before it builds anything; an unknown driver name
    instead makes [New] return an error value. *)
Theorem C7_invalid_level_panics name :
  ~ In name ["debug"; "info"; "warn"; "error"; "dpanic"; "panic"; "fatal"] ->
  (forall o, WithLevel name o = Panicked "invalid log level" /\
             WithStacktraceLevel name o = Panicked "invalid log level") /\
  (forall pre post o w,
     apply_opts pre default_option = Ret o ->
     New (pre ++ WithLevel name :: post) w =
       (w, Panicked "invalid log level") /\
     New (pre ++ WithStacktraceLevel name :: post) w =
       (w, Panicked "invalid log level")) /\
  (forall d w, d <> "stdout" -> d <> "file" ->
     exists w1, New [WithDriver d] w =
       (w1, Ret (None, Some ("unknown driver: " ++ d)%string))).
Proof.
  intros Hn. pose proof (parse_level_name_None _ Hn) as Hp.
  split_and!.
  - intros o. unfold WithLevel, WithStacktraceLevel. by rewrite Hp.
  - intros pre post o w Ho. unfold New.
    rewrite !apply_opts_app, Ho. simpl.
    unfold WithLevel, WithStacktraceLevel. by rewrite Hp.
  - intros d w H1 H2. unfold New, NewAtomicLevelAt. simpl.
    destruct (String.eqb_spec d "stdout"); [done|].
    destruct (String.eqb_spec d "file"); [done|].
    by eexists.
Qed.

(** C8. Called with no options, [New] works from driver "stdout",
    level Info, callerSkip 1, maxAge 7 days, rotationTime 24 hours,
    useColor false and stacktraceLevel DPanic, and the manager it
    returns is built from exactly that configuration. *)
Theorem C8_defaults :
  apply_opts [] default_option = Ret default_option /\
  driver default_option = "stdout" /\
  level default_option = InfoLevel /\
  callerSkip default_option = 1 /\
  maxAge default_option = 7 * (24 * (3600 * 1000000000)) /\
  rotationTime default_option = 24 * (3600 * 1000000000) /\
  useColor default_option = false /\
  stacktraceLevel default_option = DPanicLevel /\
  forall w, exists w1 m mg lc,
    New [] w = (w1, Ret (m, None)) /\
    load m w1 = Ret mg /\
    m_level mg = Some lc /\ cells w1 !! lc = Some InfoLevel /\
    Zap mg = zap_New (NewCore (JSONEncoder DefaultEncoderConfig) Stdout (Some lc))
               1 Stderr DPanicLevel.
Proof.
  split_and!; try reflexivity.
  intros w. destruct (New [] w) as [w1 r] eqn:HN.
  assert (exists m, r = Ret (m, None)) as [m ->].
  { revert HN. unfold New, NewAtomicLevelAt, alloc_Manager. simpl.
    intros [= _ <-]. by eexists. }
  destruct (New_inv _ _ _ _ HN)
    as (opt & mg & lc & sink & Ho & Hl & Hm & Hc & Hz & Hd & _).
  injection Ho as <-.
  destruct Hd as [[_ ->]|[Hf _]]; [|done].
  by exists w1, m, mg, lc.
Qed.

(** * Further properties of the code *)

(** ** Level names *)

Lemma parse_level_name_spec name l :
  parse_level_name name = Some l <->
  DebugLevel <= l <= FatalLevel /\ name = json.LowerString l.
Proof.
  split.
  - unfold parse_level_name.
    repeat match goal with
    | |- context [String.eqb name ?s] =>
        destruct (String.eqb_spec name s) as [->|_];
          [intros [= <-]; split; [done | reflexivity]|]
    end.
    done.
  - intros [Hl ->]. unfold DebugLevel, FatalLevel in Hl.
    assert (l = -1 \/ l = 0 \/ l = 1 \/ l = 2 \/ l = 3 \/ l = 4 \/ l = 5)
      as Hc by lia.
    destruct Hc as [->|[->|[->|[->|[->|[->| ->]]]]]]; reflexivity.
Qed.

(** X1. The names [WithLevel] and [WithStacktraceLevel] accept are
    exactly the seven names zap prints for its levels, in lower case:
    for [l] from Debug to Fatal the name [l.String()] sets level [l],
    and a name that is accepted is [l.String()] for the level it sets.
    The capitalised names the encoder writes ("INFO", ...) are not
    accepted: they panic. *)
Theorem level_names_are_zap_names l :
  DebugLevel <= l <= FatalLevel ->
  (forall o,
     WithLevel (json.LowerString l) o = Ret (set_level l o) /\
     WithStacktraceLevel (json.LowerString l) o =
       Ret (set_stacktraceLevel l o) /\
     WithLevel (json.CapitalString l) o = Panicked "invalid log level" /\
     WithStacktraceLevel (json.CapitalString l) o =
       Panicked "invalid log level") /\
  (forall name o o',
     WithLevel name o = Ret o' \/ WithStacktraceLevel name o = Ret o' ->
     exists l', DebugLevel <= l' <= FatalLevel /\ name = json.LowerString l' /\
       (WithLevel name o = Ret o' -> o' = set_level l' o) /\
       (WithStacktraceLevel name o = Ret o' -> o' = set_stacktraceLevel l' o)).
Proof.
  intros Hl. split.
  - intros o. unfold WithLevel, WithStacktraceLevel.
    rewrite (proj2 (parse_level_name_spec _ l) (conj Hl eq_refl)).
    unfold DebugLevel, FatalLevel in Hl.
    assert (l = -1 \/ l = 0 \/ l = 1 \/ l = 2 \/ l = 3 \/ l = 4 \/ l = 5)
      as Hc by lia.
    destruct Hc as [->|[->|[->|[->|[->|[->| ->]]]]]]; done.
  - intros name o o' H. unfold WithLevel, WithStacktraceLevel in *.
    destruct (parse_level_name name) as [l'|] eqn:E;
      [|by destruct H].
    apply parse_level_name_spec in E as [Hl' ->].
    exists l'. split; [done|]. split; [done|].
    split; by intros [= <-].
Qed.

(** ** Managers side by side *)

(** What [New] adds to the heap is new: its manager and its level cell
    sit at addresses that were free. *)
Lemma New_fresh opts w w1 m :
  New opts w = (w1, Ret (m, None)) ->
  exists p mg lc opt,
    m = Some p /\ apply_opts opts default_option = Ret opt /\
    managers w !! p = None /\ managers w1 = <[p := mg]> (managers w) /\
    m_level mg = Some lc /\ c_level (l_core (Zap mg)) = Some lc /\
    cells w !! lc = None /\ cells w1 = <[lc := level opt]> (cells w).
Proof.
  unfold New, NewAtomicLevelAt, alloc_Manager.
  destruct (apply_opts opts default_option) as [opt| |]; try done.
  cbv beta iota zeta.
  assert (Hc : cells w !! fresh (dom (cells w)) = None)
    by (apply not_elem_of_dom, is_fresh).
  assert (Hm : managers w !! fresh (dom (managers w)) = None)
    by (apply not_elem_of_dom, is_fresh).
  destruct (String.eqb (driver opt) "stdout").
  - intros [= <- <-]. eexists _, _, _, opt. split_and!; done.
  - destruct (String.eqb (driver opt) "file"); [|done].
    destruct (newFileCore _ _ _) as [[core|] [e|]] eqn:E; try done.
    intros [= <- <-]. eexists _, _, _, opt. split_and!; try done.
    unfold newFileCore in E. destruct (rotatelogs_New _ _ _); [|done].
    by injection E as <-.
Qed.

Lemma step_elsewhere m o w p mg lc q x :
  managers w !! p = Some mg -> m = Some p -> m_level mg = Some lc ->
  q <> lc -> cells w !! q = Some x ->
  managers (step m o w) = managers w /\ cells (step m o w) !! q = Some x.
Proof.
  intros Hp -> Hl Hq Hx. split; [apply step_managers|].
  destruct o as [l|lvl ctx msg fs|n|fs|now]; simpl; try done.
  - unfold SetLevel, load. rewrite Hp. unfold AtomicLevel_SetLevel. rewrite Hl.
    destruct (AtomicLevel_Level _ _); try done.
    cbn [fst cells set_cells]. by rewrite lookup_insert_ne.
  - by rewrite leveled_cells.
Qed.

Lemma run_elsewhere m ops p mg lc q x : forall w,
  managers w !! p = Some mg -> m = Some p -> m_level mg = Some lc ->
  q <> lc -> cells w !! q = Some x ->
  managers (run m ops w) = managers w /\ cells (run m ops w) !! q = Some x.
Proof.
  induction ops as [|o ops IH]; intros w Hp Hm Hl Hq Hx; [done|].
  destruct (step_elsewhere m o w p mg lc q x Hp Hm Hl Hq Hx) as [Hms Hcs].
  unfold run in *. simpl.
  destruct (IH (step m o w)) as [H1 H2]; try done.
  - by rewrite Hms.
  - split; [by rewrite H1|done].
Qed.

(** X2. Two managers built by [New] do not share their level: whatever
    is done to the second (its level set, calls made through it), the
    first still has the threshold its own options gave it and gates
    its calls by it. *)
Theorem managers_are_independent opts1 opts2 w0 w1 w2 m1 m2 :
  New opts1 w0 = (w1, Ret (m1, None)) ->
  New opts2 w1 = (w2, Ret (m2, None)) ->
  m1 <> m2 /\
  exists opt1, apply_opts opts1 default_option = Ret opt1 /\
    forall ops lvl ctx msg fields,
      let w' := run m2 ops w2 in
      threshold m1 w' = Ret (level opt1) /\
      (emits w' (fst (leveled lvl m1 ctx msg fields w')) <->
       level opt1 <= lvl).
Proof.
  intros H1 H2.
  destruct (New_fresh _ _ _ _ H1)
    as (p1 & mg1 & lc1 & opt1 & -> & Ho1 & _ & Hm1 & Hl1 & Hc1 & _ & Hcs1).
  destruct (New_fresh _ _ _ _ H2)
    as (p2 & mg2 & lc2 & opt2 & -> & _ & Hf2 & Hm2 & Hl2 & _ & Hfc2 & Hcs2).
  assert (Hp1 : managers w1 !! p1 = Some mg1)
    by (rewrite Hm1; apply lookup_insert_eq).
  assert (Hx1 : cells w1 !! lc1 = Some (level opt1))
    by (rewrite Hcs1; apply lookup_insert_eq).
  assert (Hpne : p1 <> p2) by (intros ->; congruence).
  assert (Hcne : lc1 <> lc2) by (intros ->; congruence).
  split; [congruence|]. exists opt1. split; [done|].
  intros ops lvl ctx msg fields w'.
  assert (Hw : wired (Some p1) w' (level opt1)).
  { destruct (run_elsewhere (Some p2) ops p2 mg2 lc2 lc1 (level opt1) w2)
      as [Hms Hcs]; try done.
    - rewrite Hm2. apply lookup_insert_eq.
    - rewrite Hcs2. by rewrite lookup_insert_ne.
    - exists mg1, lc1. split_and!; try done.
      unfold load. fold w' in Hms. rewrite Hms, Hm2.
      by rewrite lookup_insert_ne, Hp1. }
  split; [by apply threshold_wired | by apply leveled_gate].
Qed.

(** ** Managers that [New] did not build *)

(** A logger writes exactly when the cell behind its core lets the
    level through. *)
Lemma Logger_log_emits lg lc t lvl msg fs w :
  c_level (l_core lg) = Some lc -> cells w !! lc = Some t ->
  (emits w (fst (Logger_log lg lvl msg fs w)) <-> t <= lvl).
Proof.
  intros Hlg Ht. rewrite (Logger_log_gate _ _ _ _ _ _ _ Hlg Ht).
  destruct (Z.leb_spec t lvl) as [Hle|Hgt].
  - split; [done|]. intros _.
    exists (c_out (l_core lg)). eexists. unfold Core_Write.
    rewrite output_of_sink_write, output_of_report_caller. reflexivity.
  - split; [|lia]. intros H. by apply not_emits_refl in H.
Qed.

Lemma leveled_gate_core m w mg lc t lvl ctx msg fs :
  load m w = Ret mg -> c_level (l_core (Zap mg)) = Some lc ->
  cells w !! lc = Some t ->
  (emits w (fst (leveled lvl m ctx msg fs w)) <-> t <= lvl).
Proof.
  intros Hl Hc Ht. unfold leveled, getLoggerWithTraceID. rewrite Hl. simpl.
  destruct (String.eqb _ _); by apply (Logger_log_emits _ lc).
Qed.

(** X3. A Manager put together as a struct literal with only [Zap] set
    (the way the package's external tests build one) carries the zero
    AtomicLevel: [SetLevel] on it panics on the nil pointer and changes
    nothing, while its leveled calls keep working through [Zap].  On a
    nil [*Manager] every method panics and changes nothing. *)
Theorem SetLevel_needs_a_level_cell p mg lc t w :
  managers w !! p = Some mg -> m_level mg = None ->
  c_level (l_core (Zap mg)) = Some lc -> cells w !! lc = Some t ->
  (forall newLevel,
     SetLevel (Some p) newLevel w = (w, Panicked nil_deref)) /\
  (forall lvl ctx msg fields,
     emits w (fst (leveled lvl (Some p) ctx msg fields w)) <-> t <= lvl) /\
  (forall newLevel lvl ctx msg fields name,
     SetLevel None newLevel w = (w, Panicked nil_deref) /\
     leveled lvl None ctx msg fields w = (w, Panicked nil_deref) /\
     Named None name w = Panicked nil_deref /\
     With None fields w = Panicked nil_deref).
Proof.
  intros Hp Hl Hc Ht.
  assert (Hload : load (Some p) w = Ret mg) by (unfold load; by rewrite Hp).
  split_and!.
  - intros newLevel. unfold SetLevel. by rewrite Hload, Hl.
  - intros. by apply (leveled_gate_core _ _ mg lc).
  - done.
Qed.

(** ** How a leveled call ends *)

(** X4. On a manager built by [New], [Panic] always ends in a panic
    that carries the message and [Fatal] always ends in exit status 1,
    also when the threshold keeps the record from being written (the
    world is then left as it was); [Debug], [Info], [Warn] and [Error]
    always return. *)
Theorem Panic_and_Fatal_always_terminate opts w0 w m :
  New opts w0 = (w, Ret (m, None)) ->
  exists opt, apply_opts opts default_option = Ret opt /\
    forall ops ctx msg fields,
      let w' := run m ops w in
      snd (Panic m ctx msg fields w') = Panicked msg /\
      snd (Fatal m ctx msg fields w') = Exited 1 /\
      snd (Debug m ctx msg fields w') = Ret tt /\
      snd (Info m ctx msg fields w') = Ret tt /\
      snd (Warn m ctx msg fields w') = Ret tt /\
      snd (Error m ctx msg fields w') = Ret tt /\
      (PanicLevel < last_level ops (level opt) ->
       fst (Panic m ctx msg fields w') = w') /\
      (FatalLevel < last_level ops (level opt) ->
       fst (Fatal m ctx msg fields w') = w').
Proof.
  intros HN. destruct (New_built _ _ _ _ HN) as (opt & sink & Ho & Hb & _).
  exists opt. split; [done|]. intros ops ctx msg fields w'.
  pose proof (run_built _ _ m ops _ _ Hb) as Hb'. fold w' in Hb'.
  assert (Hs : forall lvl, snd (leveled lvl m ctx msg fields w') = terminal lvl msg).
  { intros lvl.
    destruct (leveled_built _ _ _ _ _ lvl ctx msg fields Hb') as (mg & _ & E).
    by rewrite E. }
  assert (Hf : forall lvl, lvl < last_level ops (level opt) ->
                 fst (leveled lvl m ctx msg fields w') = w').
  { intros lvl Hlt.
    destruct (leveled_built _ _ _ _ _ lvl ctx msg fields Hb') as (mg & _ & E).
    rewrite E. simpl. destruct (Z.leb_spec (last_level ops (level opt)) lvl);
      [lia|done]. }
  unfold Panic, Fatal, Debug, Info, Warn, Error. rewrite !Hs.
  split_and!; try reflexivity; apply Hf.
Qed.

(** ** Loggers handed out by [Named] and [With] *)

Lemma run_app_ops m ops1 ops2 w :
  run m (ops1 ++ ops2) w = run m ops2 (run m ops1 w).
Proof. unfold run. apply fold_left_app. Qed.

Lemma built_child opt sink m w t child :
  built opt sink m w t ->
  (exists name, Named m name w = Ret child) \/
  (exists fields, With m fields w = Ret child) ->
  exists mg lc,
    load m w = Ret mg /\ m_level mg = Some lc /\
    c_level (l_core child) = Some lc /\ c_out (l_core child) = sink /\
    c_enc (l_core child) = encoder_of opt /\
    l_addCaller child = true /\ l_callerSkip child = callerSkip opt.
Proof.
  intros (mg & lc & Hl & Hm & Hc & Hz) Hch. exists mg, lc.
  unfold Named, With in Hch. rewrite Hl in Hch. simpl in Hch.
  destruct Hch as [[name [= <-]]|[fields [= <-]]]; rewrite Hz.
  - unfold Logger_Named. destruct (String.eqb name ""); done.
  - destruct fields; done.
Qed.

(** X5. A logger obtained from [Named] or [With] stays tied to the
    manager's level: after any later operations on the manager,
    [SetLevel] included, the child writes a record exactly when the
    level is at least the manager's current threshold. *)
Theorem children_follow_SetLevel opts w0 w m :
  New opts w0 = (w, Ret (m, None)) ->
  exists opt, apply_opts opts default_option = Ret opt /\
    forall ops1 ops2 child lvl msg fields,
      (exists name, Named m name (run m ops1 w) = Ret child) \/
      (exists fs, With m fs (run m ops1 w) = Ret child) ->
      let w' := run m (ops1 ++ ops2) w in
      (emits w' (fst (Logger_log child lvl msg fields w')) <->
       last_level (ops1 ++ ops2) (level opt) <= lvl).
Proof.
  intros HN. destruct (New_built _ _ _ _ HN) as (opt & sink & Ho & Hb & _).
  exists opt. split; [done|].
  intros ops1 ops2 child lvl msg fields Hch w'.
  pose proof (run_built _ _ m ops1 _ _ Hb) as Hb1.
  destruct (built_child _ _ _ _ _ _ Hb1 Hch)
    as (mg & lc & Hl & Hm & Hc & _).
  pose proof (run_built _ _ m (ops1 ++ ops2) _ _ Hb) as Hb2. fold w' in Hb2.
  destruct Hb2 as (mg' & lc' & Hl' & Hm' & Hc' & _).
  assert (mg' = mg) as ->.
  { unfold w' in Hl'. rewrite run_app_ops in Hl'.
    rewrite (load_ext _ _ _ (run_managers m ops2 _)) in Hl'. congruence. }
  assert (lc' = lc) as -> by congruence.
  by apply (Logger_log_emits _ lc).
Qed.

Lemma Logger_log_emitted lg lc t lvl msg fs w s r :
  c_level (l_core lg) = Some lc -> cells w !! lc = Some t ->
  output_of s (fst (Logger_log lg lvl msg fs w)) = (output_of s w ++ [r])%list ->
  t <= lvl /\ r = record_of lg lvl msg fs w.
Proof.
  intros Hlg Ht H. rewrite (Logger_log_gate _ _ _ _ _ _ _ Hlg Ht) in H.
  destruct (Z.leb_spec t lvl) as [Hle|Hgt].
  - split; [done|]. unfold Core_Write in H.
    rewrite <- (output_of_report_caller s lg w) in H.
    by apply emitted_unique in H.
  - apply (f_equal (@length Written)) in H.
    rewrite length_app in H. simpl in H. lia.
Qed.

(** X6. What goes through a child logger: a record written through the
    logger [Named] returns carries that name as its logger name and
    exactly the call's fields; one written through the logger [With]
    returns carries the bound fields followed by the call's fields and
    no logger name.  Naming a named logger again joins the two names
    with a dot.  No trace identifier is added on either path. *)
Theorem child_records opts w0 w m :
  New opts w0 = (w, Ret (m, None)) ->
  forall ops name bound named bounded lvl msg fields s r,
    let w' := run m ops w in
    Named m name w' = Ret named ->
    With m bound w' = Ret bounded ->
    (output_of s (fst (Logger_log named lvl msg fields w')) =
       (output_of s w' ++ [r])%list ->
     LoggerName (w_entry r) = name /\ w_fields r = fields /\
     ELevel (w_entry r) = lvl /\ Message (w_entry r) = msg) /\
    (output_of s (fst (Logger_log bounded lvl msg fields w')) =
       (output_of s w' ++ [r])%list ->
     LoggerName (w_entry r) = "" /\ w_fields r = (bound ++ fields)%list /\
     ELevel (w_entry r) = lvl /\ Message (w_entry r) = msg) /\
    (forall sub, name <> "" -> sub <> "" ->
     l_name (Logger_Named named sub) = (name ++ "." ++ sub)%string).
Proof.
  intros HN ops name bound named bounded lvl msg fields s r w' Hn Hw.
  destruct (New_built _ _ _ _ HN) as (opt & sink & Ho & Hb & _).
  pose proof (run_built _ _ m ops _ _ Hb) as Hb'. fold w' in Hb'.
  destruct (built_child _ _ _ _ _ _ Hb' (or_introl (ex_intro _ name Hn)))
    as (mg & lc & Hl & Hm & Hcn & _).
  destruct (built_child _ _ _ _ _ _ Hb' (or_intror (ex_intro _ bound Hw)))
    as (mg' & lc' & Hl' & Hm' & Hcw & _).
  destruct Hb' as (mg0 & lc0 & Hl0 & Hm0 & Ht0 & Hz).
  assert (mg0 = mg) as -> by congruence.
  assert (mg' = mg) as -> by congruence.
  assert (lc0 = lc) as -> by congruence.
  assert (lc' = lc) as -> by congruence.
  unfold Named, With in Hn, Hw. rewrite Hl in Hn, Hw. simpl in Hn, Hw.
  injection Hn as <-. injection Hw as <-.
  split_and!.
  - intros H.
    destruct (Logger_log_emitted _ _ _ _ _ _ _ _ _ Hcn Ht0 H) as [_ ->].
    rewrite Hz. unfold Logger_Named.
    destruct (String.eqb_spec name "") as [->|Hne]; done.
  - intros H.
    destruct (Logger_log_emitted _ _ _ _ _ _ _ _ _ Hcw Ht0 H) as [_ ->].
    rewrite Hz. destruct bound; done.
  - intros sub Hname Hsub. rewrite Hz. unfold Logger_Named.
    destruct (String.eqb_spec sub "") as [|_]; [done|].
    destruct (String.eqb_spec name "") as [|_]; [done|]. simpl.
    by destruct (String.eqb_spec name "").
Qed.

(** ** What an emitted record holds *)


Lemma caller_at_found w k :
  k <= 1 + Z.of_nat (frames_above w) -> caller_at w k = Some (call_site w k).
Proof.
  intros H. unfold caller_at.
  by destruct (Z.leb_spec k (1 + Z.of_nat (frames_above w))); [|lia].
Qed.



(** ** Trace identifiers along a chain of contexts *)

Lemma any_eqb_eq a b : context.any_eqb a b = true <-> a = b.
Proof.
  destruct a, b; simpl; try (split; [discriminate|congruence]).
  - done.
  - rewrite String.eqb_eq. split; congruence.
  - rewrite Z.eqb_eq. split; congruence.
  - rewrite Bool.eqb_true_iff. split; congruence.
  - rewrite andb_true_iff, !String.eqb_eq.
    split; [by intros [-> ->] | by intros [= -> ->]].
Qed.

(** X8. The trace identifier of a context is decided by the innermost
    value stored under the string key "trace_id": a string there is the
    identifier, even when it hides another one further out; anything
    else there hides an outer identifier and gives the empty string;
    values stored under other keys, a key of a different type spelled
    "trace_id" included, are looked through. *)
Theorem trace_id_lookup ctx :
  getTraceIDFromContext context.Background = "" /\
  (forall s,
     getTraceIDFromContext
       (context.WithValue ctx (context.Str TraceIDKey) (context.Str s)) = s) /\
  (forall v, snd (context.assert_string v) = false ->
     getTraceIDFromContext
       (context.WithValue ctx (context.Str TraceIDKey) v) = "") /\
  (forall k v, k <> context.Str TraceIDKey ->
     getTraceIDFromContext (context.WithValue ctx k v) =
       getTraceIDFromContext ctx) /\
  (forall ty v,
     getTraceIDFromContext
       (context.WithValue ctx (context.NamedStr ty "trace_id") v) =
       getTraceIDFromContext ctx).
Proof.
  split_and!; try done.
  - intros v Hv. unfold getTraceIDFromContext. simpl.
    destruct (context.assert_string v) as [tid ok]. simpl in Hv. by subst ok.
  - intros k v Hk. unfold getTraceIDFromContext. simpl.
    destruct (context.any_eqb k (context.Str TraceIDKey)) eqn:E; [|done].
    by apply any_eqb_eq in E.
Qed.

(** ** What a run leaves on standard-out *)

Lemma Logger_log_frames lg lvl msg fs w :
  frames_above (fst (Logger_log lg lvl msg fs w)) = frames_above w.
Proof.
  unfold Logger_log.
  destruct (AtomicLevel_Enabled _ _ _) as [[|]| |]; simpl; try done.
  unfold Core_Write. by rewrite sink_write_frames, report_caller_frames.
Qed.

Lemma SetLevel_quiet m l w :
  stdout (fst (SetLevel m l w)) = stdout w /\
  stderr (fst (SetLevel m l w)) = stderr w /\
  files (fst (SetLevel m l w)) = files w /\
  check_errors (fst (SetLevel m l w)) = check_errors w /\
  frames_above (fst (SetLevel m l w)) = frames_above w.
Proof.
  unfold SetLevel, AtomicLevel_SetLevel.
  destruct (load m w) as [mg| |]; try done.
  destruct (AtomicLevel_Level _ _), (m_level mg); done.
Qed.

(** The stack is the program's, not the logger's: no operation changes
    its height. *)
Lemma step_frames m o w : frames_above (step m o w) = frames_above w.
Proof.
  destruct o as [l|lvl ctx msg fs|n|fs|now]; simpl; try done.
  - apply SetLevel_quiet.
  - unfold leveled. destruct (getLoggerWithTraceID m ctx w); simpl; try done.
    apply Logger_log_frames.
Qed.

Lemma run_frames m ops : forall w,
  frames_above (run m ops w) = frames_above w.
Proof.
  induction ops as [|o ops IH]; intros w; [done|].
  change (run m (o :: ops) w) with (run m ops (step m o w)).
  by rewrite IH, step_frames.
Qed.


(** ** Option lists *)

Lemma settled_cons s ss o o' :
  option_of s o = Ret o' -> settled (s :: ss) o = settled ss o'.
Proof.
  destruct s; simpl; unfold WithLevel, WithStacktraceLevel;
    try (intros [= <-]; reflexivity);
    destruct (parse_level_name name) as [l|] eqn:E; try done;
    intros [= <-]; unfold settled; simpl; by rewrite E.
Qed.

Lemma option_of_well_named s o :
  (well_named s = true -> exists o', option_of s o = Ret o') /\
  (well_named s = false -> option_of s o = Panicked "invalid log level").
Proof.
  destruct s; simpl; unfold WithLevel, WithStacktraceLevel;
    try (split; [by eexists | done]);
    destruct (parse_level_name name) as [l|]; simpl;
    (split; [intros H; try done; by eexists | by intros H]).
Qed.

(** X10. How a list of options composes.  When every level name in it
    is one of the seven, applying the options in order ends with each
    field of the option struct at the value its last setting gave it,
    or at its starting value when nothing set it.  When some level name is not
    one of the seven, applying the list panics, wherever in the list
    it stands, and so does [New], without touching anything. *)
Theorem options_compose ss o :
  (forallb well_named ss = true ->
   apply_opts (map option_of ss) o = Ret (settled ss o)) /\
  (forallb well_named ss = false ->
   apply_opts (map option_of ss) o = Panicked "invalid log level" /\
   forall w, New (map option_of ss) w = (w, Panicked "invalid log level")).
Proof.
  assert (Hgen : forall ss o,
    apply_opts (map option_of ss) o =
      if forallb well_named ss then Ret (settled ss o)
      else Panicked "invalid log level").
  { clear. induction ss as [|s ss IH]; intros o.
    - by destruct o.
    - simpl. destruct (option_of_well_named s o) as [Hok Hbad].
      destruct (well_named s).
      + destruct (Hok eq_refl) as [o' E]. rewrite E. simpl.
        rewrite IH, (settled_cons _ _ _ _ E). by destruct (forallb _ _).
      + by rewrite (Hbad eq_refl). }
  split; intros H.
  - by rewrite Hgen, H.
  - split; [by rewrite Hgen, H|]. intros w. unfold New. by rewrite Hgen, H.
Qed.

(** ** caller_skip.go *)

Lemma int32_range n : - 2 ^ 31 <= int32 n < 2 ^ 31.
Proof. unfold int32. pose proof (Z.mod_pos_bound (n + 2 ^ 31) (2 ^ 32)). lia. Qed.

Lemma int32_id n : int32 n = n <-> - 2 ^ 31 <= n < 2 ^ 31.
Proof.
  split.
  - intros <-. apply int32_range.
  - intros H. unfold int32. rewrite Z.mod_small; lia.
Qed.

Lemma NewCallerSkip_spec n w :
  NewCallerSkip n w =
    (set_cells (<[fresh (dom (cells w)) := int32 n]> (cells w)) w,
     Ret {| skip := Some (fresh (dom (cells w))) |}).
Proof.
  unfold NewCallerSkip, CallerSkip_Set. cbn [skip cells set_cells].
  rewrite lookup_insert_eq. cbn [cells set_cells].
  by rewrite insert_insert_eq.
Qed.

(** X11. A CallerSkip gives back what was stored in it, through the
    int32 it is kept in: after [NewCallerSkip n], and after any later
    [Set n], [Load] returns the low 32 bits of [n] as a signed number,
    which is [n] itself exactly when [n] fits in an int32.  On the zero
    value of the struct both methods panic on the nil pointer. *)
Theorem CallerSkip_round_trip n w :
  exists w1 cs,
    NewCallerSkip n w = (w1, Ret cs) /\
    CallerSkip_Load cs w1 = Ret (int32 n) /\
    (int32 n = n <-> - 2 ^ 31 <= n < 2 ^ 31) /\
    (forall k,
       snd (CallerSkip_Set cs k w1) = Ret tt /\
       CallerSkip_Load cs (fst (CallerSkip_Set cs k w1)) = Ret (int32 k)) /\
    (forall k,
       CallerSkip_Set {| skip := None |} k w = (w, Panicked nil_deref) /\
       CallerSkip_Load {| skip := None |} w = Panicked nil_deref).
Proof.
  eexists _, _. split; [apply NewCallerSkip_spec|].
  unfold CallerSkip_Load, CallerSkip_Set. cbn [skip cells set_cells].
  rewrite !lookup_insert_eq.
  split; [done|]. split; [apply int32_id|]. split; [|done].
  intros k. cbn [fst snd cells set_cells]. by rewrite lookup_insert_eq.
Qed.

(** X12. Every CallerSkip has a counter of its own, apart from all
    level cells: creating a second one and setting it changes neither
    what the first one loads nor the threshold of any manager that was
    there before. *)
Theorem CallerSkip_is_separate a b w w1 w2 c1 c2 :
  NewCallerSkip a w = (w1, Ret c1) ->
  NewCallerSkip b w1 = (w2, Ret c2) ->
  c1 <> c2 /\
  forall k,
    let w3 := fst (CallerSkip_Set c2 k w2) in
    CallerSkip_Load c2 w3 = Ret (int32 k) /\
    CallerSkip_Load c1 w3 = Ret (int32 a) /\
    forall m t, threshold m w = Ret t -> threshold m w3 = Ret t.
Proof.
  rewrite !NewCallerSkip_spec. intros [= <- <-] [= <- <-].
  set (p1 := fresh (dom (cells w))).
  set (c1 := <[p1 := int32 a]> (cells w)).
  cbn [cells set_cells]. set (p2 := fresh (dom c1)).
  assert (Hf1 : cells w !! p1 = None) by (apply not_elem_of_dom, is_fresh).
  assert (Hf2 : c1 !! p2 = None) by (apply not_elem_of_dom, is_fresh).
  assert (Hne : p1 <> p2).
  { intros E. rewrite <- E in Hf2. unfold c1 in Hf2.
    by rewrite lookup_insert_eq in Hf2. }
  split; [congruence|]. intros k. cbv zeta.
  unfold CallerSkip_Set, CallerSkip_Load. cbn [skip cells set_cells].
  rewrite lookup_insert_eq. cbn [fst cells set_cells].
  rewrite lookup_insert_eq.
  rewrite !(lookup_insert_ne _ p2 p1) by done.
  unfold c1 at 1. rewrite lookup_insert_eq.
  split_and!; try done.
  intros m t. unfold threshold, load, AtomicLevel_Level.
  cbn [managers cells set_cells].
  destruct m as [p|]; [|done].
  destruct (managers w !! p) as [mg|]; [|done]. simpl.
  destruct (m_level mg) as [lc|]; [|done].
  destruct (cells w !! lc) as [x|] eqn:E; [|done]. intros [= <-].
  assert (lc <> p1) by (intros ->; congruence).
  assert (c1 !! lc = Some x) by (unfold c1; by rewrite lookup_insert_ne).
  assert (lc <> p2) by (intros ->; congruence).
  rewrite !lookup_insert_ne by done. by rewrite H0.
Qed.

(** ** The earlier version of [New] *)

Lemma v1_fields_of m ctx :
  v1_core (v1_getLoggerWithTraceID m ctx) =
    map (fun c => {| v1_enc := v1_enc c;
                     v1_fields := (v1_fields c ++ trace_fields ctx)%list;
                     v1_out := v1_out c; v1_enab := v1_enab c |})
      (v1_core (v1_Zap m)) /\
  v1_callerSkip (v1_getLoggerWithTraceID m ctx) = v1_callerSkip (v1_Zap m).
Proof.
  unfold v1_getLoggerWithTraceID, trace_fields.
  destruct (String.eqb _ _); simpl; [|done]. split; [|done].
  induction (v1_core (v1_Zap m)) as [|c cs IH]; [done|].
  simpl. rewrite <- IH, app_nil_r. by destruct c.
Qed.

(** X13. In the earlier version, with driver "stdout", a record below
    the configured level is dropped, a record at or above it and below
    Error is written once, to standard-out, and a record at or above
    both it and Error is written once, to standard-error; the files are
    never touched. *)
Theorem v1_stdout_split opts m :
  v1_New opts = (Some m, None) ->
  v1_driver (v1_apply_opts opts) = "stdout" ->
  forall lvl ctx msg fields w,
    let w' := fst (v1_leveled lvl m ctx msg fields w) in
    let r := {| w_enc := JSONEncoder (v1_encoderConfig (v1_apply_opts opts));
                w_entry := {| ELevel := lvl; ETime := clock w;
                              LoggerName := ""; Message := msg;
                              Caller := Some (call_site w 1);
                              Stack := None |};
                w_fields := (trace_fields ctx ++ fields)%list |} in
    files w' = files w /\
    (lvl < v1_level (v1_apply_opts opts) ->
     stdout w' = stdout w /\ stderr w' = stderr w) /\
    (v1_level (v1_apply_opts opts) <= lvl -> lvl < ErrorLevel ->
     stdout w' = (stdout w ++ [r])%list /\ stderr w' = stderr w) /\
    (v1_level (v1_apply_opts opts) <= lvl -> ErrorLevel <= lvl ->
     stderr w' = (stderr w ++ [r])%list /\ stdout w' = stdout w).
Proof.
  intros HN Hd lvl ctx msg fields w.
  unfold v1_New in HN. rewrite Hd in HN.
  change (String.eqb "stdout" "stdout") with true in HN.
  change (String.eqb "stdout" "file") with false in HN.
  cbv beta iota zeta in HN. injection HN as <-.
  unfold v1_leveled, v1_Logger_log.
  match goal with
  | |- context [v1_getLoggerWithTraceID ?M ctx] =>
      destruct (v1_fields_of M ctx) as [E1 E2]; rewrite E1, E2
  end.
  cbn [v1_Zap v1_callerSkip]. rewrite !(caller_at_found w 1) by lia.
  cbn -[Z.leb Z.ltb ErrorLevel].
  destruct (Z.leb_spec (v1_level (v1_apply_opts opts)) lvl);
    destruct (Z.ltb_spec lvl ErrorLevel);
    destruct (Z.leb_spec ErrorLevel lvl); try lia;
    cbn -[ErrorLevel]; split_and!; try done; try lia.
Qed.

(** X14. In the earlier version an unknown driver name is no error:
    [New] returns a manager whose core fans out to nothing, and every
    leveled call on it leaves the world as it was. *)
Theorem v1_unknown_driver_is_silent opts :
  v1_driver (v1_apply_opts opts) <> "stdout" ->
  v1_driver (v1_apply_opts opts) <> "file" ->
  exists m, v1_New opts = (Some m, None) /\
    forall lvl ctx msg fields w,
      fst (v1_leveled lvl m ctx msg fields w) = w.
Proof.
  intros H1 H2. unfold v1_New.
  destruct (String.eqb_spec (v1_driver (v1_apply_opts opts)) "stdout");
    [done|].
  destruct (String.eqb_spec (v1_driver (v1_apply_opts opts)) "file");
    [done|].
  eexists. split; [done|]. intros lvl ctx msg fields w.
  unfold v1_leveled, v1_Logger_log.
  match goal with
  | |- context [v1_getLoggerWithTraceID ?M ctx] =>
      destruct (v1_fields_of M ctx) as [E1 E2]; rewrite E1
  end.
  reflexivity.
Qed.

(** X15. In the earlier version, with driver "file" and a log path of
    plain text, [New] succeeds and a record at or above the configured
    level, of whatever severity, is appended to the file of the day and
    to nothing else; a record below the level is dropped.  When the
    rotation sink cannot be opened, [New] returns its error as it is
    and no manager. *)
Theorem v1_file_driver opts :
  v1_driver (v1_apply_opts opts) = "file" ->
  (literal (v1_logPath (v1_apply_opts opts)) = true ->
   exists m, v1_New opts = (Some m, None) /\
     forall lvl ctx msg fields w,
       let w' := fst (v1_leveled lvl m ctx msg fields w) in
       let path :=
         dated_file (v1_logPath (v1_apply_opts opts)) (sink_date w) in
       stdout w' = stdout w /\ stderr w' = stderr w /\
       (lvl < v1_level (v1_apply_opts opts) -> w' = w) /\
       (v1_level (v1_apply_opts opts) <= lvl ->
        exists r,
          file_content path w' = (file_content path w ++ [r])%list /\
          ELevel (w_entry r) = lvl /\ Message (w_entry r) = msg /\
          w_fields r = (trace_fields ctx ++ fields)%list)) /\
  (forall e,
     rotatelogs_New (v1_logPath (v1_apply_opts opts) ++ "%Y-%m-%d.log")%string
       0 (24 * Hour) = inr e ->
     v1_New opts = (None, Some e)).
Proof.
  intros Hd. split.
  - intros Hlit. unfold v1_New. rewrite Hd.
    change (String.eqb "file" "stdout") with false.
    change (String.eqb "file" "file") with true. cbv beta iota zeta.
    destruct (rotatelogs_New _ 0 (24 * Hour)) as [hook|e] eqn:Hr.
    2: { exfalso. revert Hr. unfold rotatelogs_New.
         by rewrite (strftime_New_literal _ Hlit). }
    eexists. split; [done|]. intros lvl ctx msg fields w.
    unfold v1_leveled, v1_Logger_log.
    match goal with
    | |- context [v1_getLoggerWithTraceID ?M ctx] =>
        destruct (v1_fields_of M ctx) as [E1 E2]; rewrite E1, E2
    end.
    cbn [v1_Zap v1_callerSkip]. rewrite !(caller_at_found w 1) by lia.
    cbn -[Z.leb current_file].
    destruct (Z.leb_spec (v1_level (v1_apply_opts opts)) lvl) as [Hle|Hlt].
    + cbn -[current_file].
      split; [done|]. split; [done|]. split; [intros; lia|].
      intros _. eexists. split.
      * pose proof (output_of_sink_write (Rotating hook)) as Hw.
        cbn [output_of] in Hw.
        rewrite <- (current_file_daily _ _ hook w Hlit Hr). apply Hw.
      * done.
    + split; [done|]. split; [done|]. split; [done|]. intros; lia.
  - intros e He. unfold v1_New. rewrite Hd.
    change (String.eqb "file" "file") with true. cbv beta iota zeta.
    by rewrite He.
Qed.

(** X16. The earlier [WithLevel] never refuses a name: "debug",
    "error", "warn" and "fatal" set their level and every other name
    sets Info, "panic" and "dpanic" included, which the later
    [WithLevel] takes as the levels Panic and DPanic. *)
Theorem v1_WithLevel_defaults_to_Info name o :
  ~ In name ["debug"; "error"; "warn"; "fatal"] ->
  v1_WithLevel name o =
    {| v1_driver := v1_driver o; v1_level := InfoLevel;
       v1_logPath := v1_logPath o;
       v1_encoderConfig := v1_encoderConfig o |} /\
  (forall o', v1_level (v1_WithLevel "panic" o) = InfoLevel /\
              v1_level (v1_WithLevel "dpanic" o) = InfoLevel /\
              WithLevel "panic" o' = Ret (set_level PanicLevel o') /\
              WithLevel "dpanic" o' = Ret (set_level DPanicLevel o')).
Proof.
  intros H. split; [|done]. unfold v1_WithLevel.
  repeat match goal with
  | |- context [String.eqb name ?s] =>
      destruct (String.eqb_spec name s) as [->|_];
        [exfalso; apply H; simpl; tauto|]
  end.
  reflexivity.
Qed.

(** ** Flushing *)

(** X17. [Sync] changes nothing and reports the sink's answer: with
    driver "file" it returns nil whatever the operating system would
    say about the standard streams, with driver "stdout" it returns
    exactly what syncing standard-out returns, at any point of a run;
    on a nil manager it panics. *)
Theorem Sync_reports_the_sink opts opt w0 w m :
  New opts w0 = (w, Ret (m, None)) ->
  apply_opts opts default_option = Ret opt ->
  forall ops os_sync,
    (driver opt = "file" -> Sync m os_sync (run m ops w) = Ret None) /\
    (driver opt = "stdout" ->
     Sync m os_sync (run m ops w) = Ret (os_sync Stdout)) /\
    Sync None os_sync (run m ops w) = Panicked nil_deref.
Proof.
  intros HN Ho ops os_sync.
  destruct (New_built _ _ _ _ HN) as (opt' & sink & Ho' & Hb & Hs).
  rewrite Ho in Ho'. injection Ho' as <-.
  destruct (run_built _ _ m ops _ _ Hb) as (mg & lc & Hl & _ & _ & Hz).
  unfold Sync. rewrite Hl. simpl. rewrite Hz. simpl.
  destruct Hs as [[Hd ->]|[Hd (hook & _ & ->)]]; rewrite Hd;
    split_and!; done.
Qed.

(** ** Reading the line back *)

Lemma scrub_ascii s : ascii_only s = true -> json.scrub s = s.
Proof.
  unfold json.scrub. induction s as [|c s IH]; [done|].
  simpl ascii_only. intros H. apply andb_prop in H as [Hc Hs].
  rewrite scrub_from_0, Hc. by rewrite (IH Hs).
Qed.

Lemma scrub_to_ascii s t :
  ascii_only t = true -> json.scrub s = t -> s = t.
Proof.
  unfold json.scrub. revert t. induction s as [|c s IH]; intros t Ht; [done|].
  rewrite scrub_from_0.
  destruct (N.ltb_spec (json.code c) 128) as [Hlt|Hge].
  - destruct t as [|d t]; [done|]. intros [= -> E].
    simpl in Ht. apply andb_prop in Ht as [_ Ht]. by rewrite (IH _ Ht E).
  - destruct (json.rune_len (String c s)).
    + intros <-. by vm_compute in Ht.
    + intros <-. simpl in Ht. apply andb_prop in Ht as [Hc _].
      apply N.ltb_lt in Hc. lia.
Qed.

Lemma get_app key a b :
  json.get key (a ++ b) =
    match json.get key b with
    | Some v => Some v
    | None => json.get key a
    end.
Proof.
  induction a as [|[k v] a IH]; simpl.
  - by destruct (json.get key b).
  - rewrite IH. by destruct (json.get key b).
Qed.

Lemma get_fields_None key fs :
  (forall f, In f fs -> Key f <> key) -> ascii_only key = true ->
  json.get key
    (map json.read_member
       (map (fun f => (Key f, json.item_of_field (Val f))) fs)) = None.
Proof.
  intros H Hk. induction fs as [|f fs IH]; [done|].
  simpl. rewrite IH by (intros g Hg; apply H; by right).
  destruct (String.eqb_spec (json.scrub (Key f)) key) as [E|_]; [|done].
  exfalso. apply (H f); [by left|]. by apply scrub_to_ascii.
Qed.

(** X18. The trace identifier and the message can be read back from the
    line: with the JSON encoder over the default configuration, when
    the context carries the identifier [v], the message and [v] are
    plain ASCII and no field of the call is named "TraceID" or "M", the
    line written for the call parses to an object that holds [v] under
    "TraceID" and the message under "M". *)
Theorem trace_id_reads_back opts opt w0 w m ops lvl ctx v msg fields s r :
  New opts w0 = (w, Ret (m, None)) ->
  apply_opts opts default_option = Ret opt ->
  useColor opt = false ->
  encoderConfig opt = DefaultEncoderConfig ->
  carries_trace ctx v ->
  ascii_only v = true -> ascii_only msg = true ->
  (forall f, In f fields -> Key f <> "TraceID" /\ Key f <> "M") ->
  let w' := run m ops w in
  output_of s (fst (leveled lvl m ctx msg fields w')) =
    (output_of s w' ++ [r])%list ->
  exists obj,
    json.parse
      (json.EncodeEntry DefaultEncoderConfig (w_entry r) (w_fields r)) =
      Some obj /\
    json.get "TraceID" obj = Some (json.JString v) /\
    json.get "M" obj = Some (json.JString msg).
Proof.
  intros HN Ho Hcol Hcfg Hv Hav Ham Hf w' Hout.
  destruct (New_built _ _ _ _ HN) as (opt' & sink & Ho' & Hb & _).
  rewrite Ho in Ho'. injection Ho' as <-.
  pose proof (run_built _ _ m ops _ _ Hb) as Hb'. fold w' in Hb'.
  rewrite (leveled_emitted_entry _ _ _ _ _ _ _ _ _ _ _ Hb' Hout).
  cbn [w_entry w_fields].
  eexists. split; [by apply parse_EncodeEntry|].
  rewrite (trace_fields_carries _ _ Hv).
  set (stk := match caller_at w' (callerSkip opt) with
              | Some _ => _ | None => None end).
  clearbody stk.
  destruct (caller_at w' (callerSkip opt)) as [site|].
  all: unfold json.members.
  all: cbn [ELevel ETime LoggerName Message Caller Stack DefaultEncoderConfig
       LevelKey TimeKey NameKey CallerKey MessageKey StacktraceKey
       EncodeLevel].
  all: change (json.nonempty "L") with true.
  all: change (json.nonempty "T") with true.
  all: change (json.nonempty "" && json.nonempty "N") with false.
  all: try change (json.nonempty "C") with true.
  all: change (json.nonempty "M") with true.
  all: cbv iota.
  all: assert (Hst : forall key, key <> "S" ->
            json.get key
              (map json.read_member
                 match stk with
                 | Some st =>
                     if json.nonempty st && json.nonempty "S"
                     then [("S", json.Escaped st)] else []
                 | None => []
                 end) = None)
    by (intros key Hk;
        destruct stk as [st|]; [|done];
        destruct (json.nonempty _ && json.nonempty _); [|done];
        cbn [map json.read_member json.get fst snd StacktraceKey];
        change (json.scrub "S") with "S";
        by destruct (String.eqb_spec "S" key)).
  all: rewrite !map_app, !get_app.
  all: rewrite !Hst by done.
  all: rewrite !(get_fields_None _ fields);
    try done; try (intros f Hin; by apply Hf).
  all: unfold json.read_member, zap_String.
  all: cbn [map json.read_item fst snd Key Val json.item_of_field app].
  all: rewrite (scrub_ascii _ Hav), (scrub_ascii _ Ham).
  all: split; reflexivity.
Qed.

(** ** What construction and level changes leave alone *)

(** X19. [New] writes nothing and disturbs nothing that exists, however
    it ends: the standard streams, the files and the clock are as
    before, and every manager and level cell that was there is still
    there with the same content.  When it panics the world is
    untouched; when it returns an error it returns no manager and has
    put none on the heap. *)
Theorem New_disturbs_nothing opts w w1 r :
  New opts w = (w1, r) ->
  stdout w1 = stdout w /\ stderr w1 = stderr w /\ files w1 = files w /\
  clock w1 = clock w /\ sink_date w1 = sink_date w /\
  (forall p mg, managers w !! p = Some mg -> managers w1 !! p = Some mg) /\
  (forall p v, cells w !! p = Some v -> cells w1 !! p = Some v) /\
  (forall msg, r = Panicked msg -> w1 = w) /\
  (forall mp e, r = Ret (mp, Some e) ->
     mp = None /\ managers w1 = managers w).
Proof.
  unfold New, NewAtomicLevelAt, alloc_Manager.
  destruct (apply_opts opts default_option) as [opt|msg|c].
  2,3: intros [= <- <-]; split_and!; try done; by intros ? [= <-].
  cbv beta iota zeta.
  assert (Hc : forall p v, cells w !! p = Some v ->
            <[fresh (dom (cells w)) := level opt]> (cells w) !! p = Some v).
  { intros p v Hp. rewrite lookup_insert_ne; [done|].
    intros <-. pose proof (is_fresh (dom (cells w))) as Hf.
    apply not_elem_of_dom in Hf. congruence. }
  assert (Hm : forall mg0 p mg, managers w !! p = Some mg ->
            <[fresh (dom (managers w)) := mg0]> (managers w) !! p = Some mg).
  { intros mg0 p mg Hp. rewrite lookup_insert_ne; [done|].
    intros <-. pose proof (is_fresh (dom (managers w))) as Hf.
    apply not_elem_of_dom in Hf. congruence. }
  destruct (String.eqb (driver opt) "stdout").
  { intros [= <- <-]. split_and!; try done. intros p mg. apply Hm. }
  destruct (String.eqb (driver opt) "file").
  - unfold newFileCore. destruct (rotatelogs_New _ _ _) as [hook|err];
      intros [= <- <-]; (split_and!; try done);
        [intros p mg; apply Hm | by intros ? ? [= <- _]].
  - intros [= <- <-]. split_and!; try done. by intros ? ? [= <- _].
Qed.

Lemma set_cells_same w : set_cells (cells w) w = w.
Proof. by destruct w. Qed.

(** X20. [SetLevel] only moves the threshold: it returns, writes
    nothing, setting the level twice leaves the world as setting the
    second level alone does, and setting the level to what it already
    is leaves the world as it was. *)
Theorem SetLevel_composes opts w0 w m :
  New opts w0 = (w, Ret (m, None)) ->
  forall ops a b,
    let w' := run m ops w in
    snd (SetLevel m a w') = Ret tt /\
    stdout (fst (SetLevel m a w')) = stdout w' /\
    stderr (fst (SetLevel m a w')) = stderr w' /\
    files (fst (SetLevel m a w')) = files w' /\
    managers (fst (SetLevel m a w')) = managers w' /\
    fst (SetLevel m b (fst (SetLevel m a w'))) = fst (SetLevel m b w') /\
    (threshold m w' = Ret a -> fst (SetLevel m a w') = w').
Proof.
  intros HN ops a b w'.
  destruct (New_built _ _ _ _ HN) as (opt & sink & Ho & Hb & _).
  destruct (run_built _ _ m ops _ _ Hb) as (mg & lc & Hl & Hm & Hc & _).
  fold w' in Hl, Hc.
  assert (E : forall x, SetLevel m x w' =
                (set_cells (<[lc := x]> (cells w')) w', Ret tt)).
  { intros x. unfold SetLevel, AtomicLevel_SetLevel, AtomicLevel_Level.
    by rewrite Hl, Hm, Hc. }
  rewrite !E. cbn [fst snd]. split_and!; try done.
  - unfold SetLevel, AtomicLevel_SetLevel, AtomicLevel_Level.
    rewrite (load_ext m w' (set_cells _ w') eq_refl), Hl, Hm.
    cbn [cells set_cells]. rewrite lookup_insert_eq. cbn [fst].
    unfold set_cells. cbn [cells managers stdout stderr files sink_date
      clock call_site stack_trace]. by rewrite insert_insert_eq.
  - unfold threshold, AtomicLevel_Level. rewrite Hl. simpl. rewrite Hm, Hc.
    intros [= Ha]. rewrite <- Ha, insert_id by exact Hc.
    apply set_cells_same.
Qed.

End Logger.

(** * The properties at work: concrete runs in [world0] *)

Example New_default_runs :
  New no_directive [] world0 =
    (fst (New no_directive [] world0), Ret (Some 1%positive, None)).
Proof. vm_compute. reflexivity. Qed.

Lemma C1_level_gate_witness :
  New no_directive [] world0 =
    (fst (New no_directive [] world0), Ret (Some 1%positive, None)) /\
  exists opt, apply_opts [] default_option = Ret opt /\
    (emits no_directive
       (run no_directive (Some 1%positive) [OpSetLevel WarnLevel]
          (fst (New no_directive [] world0)))
       (fst (Info no_directive (Some 1%positive) context.Background "hi" []
               (run no_directive (Some 1%positive) [OpSetLevel WarnLevel]
                  (fst (New no_directive [] world0)))))
     <-> WarnLevel <= InfoLevel).
Proof.
  split; [vm_compute; reflexivity|].
  destruct (C1_level_gate no_directive [] world0 _ _ New_default_runs)
    as (opt & Ho & H & _).
  exists opt. split; [done|].
  injection Ho as <-.
  exact (proj2 (H [OpSetLevel WarnLevel] InfoLevel context.Background "hi" [])).
Defined.

Lemma C2_trace_enrichment_witness :
  exists r,
    New no_directive [] world0 =
      (fst (New no_directive [] world0), Ret (Some 1%positive, None)) /\
    output_of no_directive Stdout
      (fst (Info no_directive (Some 1%positive)
              (context.WithValue context.Background
                 (context.Str "trace_id") (context.Str "abc123"))
              "This is an info message" []
              (run no_directive (Some 1%positive) []
                 (fst (New no_directive [] world0))))) =
      (output_of no_directive Stdout
         (run no_directive (Some 1%positive) []
            (fst (New no_directive [] world0))) ++ [r])%list /\
    carries_trace
      (context.WithValue context.Background
         (context.Str "trace_id") (context.Str "abc123")) "abc123" /\
    w_fields r = [zap_String "TraceID" "abc123"].
Proof.
  eexists. split; [exact New_default_runs|].
  split; [vm_compute; reflexivity|].
  assert (Hc : carries_trace
      (context.WithValue context.Background
         (context.Str "trace_id") (context.Str "abc123")) "abc123")
    by (split; [reflexivity | discriminate]).
  split; [exact Hc|].
  refine (proj2 (proj1 (C2_trace_enrichment no_directive [] world0 _ _ []
            InfoLevel _ "This is an info message" [] Stdout _
            New_default_runs _) "abc123" Hc)).
  vm_compute. reflexivity.
Defined.

Lemma C3_construction_errors_witness :
  apply_opts [WithDriver "invalid"] default_option =
    Ret (set_driver "invalid" default_option) /\
  (driver (set_driver "invalid" default_option) <> "stdout" /\
   driver (set_driver "invalid" default_option) <> "file") /\
  exists w1 err,
    New no_directive [WithDriver "invalid"] world0 =
      (w1, Ret (None, Some err)) /\
    managers w1 = managers world0 /\
    stdout w1 = stdout world0 /\ stderr w1 = stderr world0 /\
    files w1 = files world0.
Proof.
  split; [reflexivity|].
  assert (Hd : driver (set_driver "invalid" default_option) <> "stdout" /\
               driver (set_driver "invalid" default_option) <> "file")
    by (split; discriminate).
  split; [exact Hd|].
  exact (C3_construction_errors no_directive [WithDriver "invalid"] _ world0
           eq_refl (or_introl Hd)).
Defined.

(** A log path with a directive the library does not know: the
    rotation sink cannot be opened and construction fails. *)
Example New_file_open_fails :
  New no_directive [WithDriver "file"; WithLogPath "/var/log/%Q/"] world0 =
    (fst (NewAtomicLevelAt InfoLevel world0),
     Ret (None,
          Some "failed to create file core: invalid strftime pattern")).
Proof. vm_compute. reflexivity. Qed.

(** C4, as the specification states it, fails: on a default ("stdout")
    manager an admitted Error record goes to standard-out and
    standard-error receives nothing. *)
Lemma C4_counterexample :
  New no_directive [] world0 =
    (fst (New no_directive [] world0), Ret (Some 1%positive, None)) /\
  driver default_option = "stdout" /\
  level default_option <= ErrorLevel /\
  ErrorLevel <= ErrorLevel /\
  (exists r,
     stdout (fst (Error no_directive (Some 1%positive) context.Background
                    "boom" [] (fst (New no_directive [] world0)))) = [r] /\
     ELevel (w_entry r) = ErrorLevel) /\
  stderr (fst (Error no_directive (Some 1%positive) context.Background
                 "boom" [] (fst (New no_directive [] world0)))) = [] /\
  ~ (exists r,
       stderr (fst (Error no_directive (Some 1%positive) context.Background
                      "boom" [] (fst (New no_directive [] world0)))) =
       (stderr (fst (New no_directive [] world0)) ++ [r])%list).
Proof.
  split; [exact New_default_runs|].
  split; [reflexivity|]. split; [vm_compute; discriminate|].
  split; [lia|]. split; [eexists; split; vm_compute; reflexivity|].
  split; [vm_compute; reflexivity|].
  intros [r Hr]. vm_compute in Hr. discriminate.
Qed.

Lemma C4_stdout_driver_witness :
  New no_directive [] world0 =
    (fst (New no_directive [] world0), Ret (Some 1%positive, None)) /\
  apply_opts [] default_option = Ret default_option /\
  driver default_option = "stdout" /\
  last_level [] (level default_option) <= ErrorLevel /\
  (exists r,
     stdout (fst (Error no_directive (Some 1%positive) context.Background
                    "boom" [] (fst (New no_directive [] world0)))) =
       (stdout (fst (New no_directive [] world0)) ++ [r])%list /\
     ELevel (w_entry r) = ErrorLevel /\ Message (w_entry r) = "boom") /\
  stderr (fst (Error no_directive (Some 1%positive) context.Background
                 "boom" [] (fst (New no_directive [] world0)))) =
    stderr (fst (New no_directive [] world0)) /\
  files (fst (Error no_directive (Some 1%positive) context.Background
                "boom" [] (fst (New no_directive [] world0)))) =
    files (fst (New no_directive [] world0)).
Proof.
  split; [exact New_default_runs|].
  split; [reflexivity|]. split; [reflexivity|].
  assert (Hle : last_level [] (level default_option) <= ErrorLevel)
    by (vm_compute; discriminate).
  split; [exact Hle|].
  exact (C4_stdout_driver no_directive [] default_option world0 _ _ []
           ErrorLevel context.Background "boom" []
           New_default_runs eq_refl eq_refl Hle).
Defined.


Lemma C6_counterexample :
  New no_directive
    [WithDriver "file"; WithLogPath "/tmp/test-log-";
     WithRotationTime (7 * 24 * Hour)] world0 =
    (fst (New no_directive
            [WithDriver "file"; WithLogPath "/tmp/test-log-";
             WithRotationTime (7 * 24 * Hour)] world0),
     Ret (Some 1%positive, None)) /\
  t_date (clock world0) = {| year := 2024; month := 3; day := 7 |} /\
  file_content "/tmp/test-log-2024-03-07.log"
    (fst (Info no_directive (Some 1%positive) context.Background
            "to the file" []
            (fst (New no_directive
                    [WithDriver "file"; WithLogPath "/tmp/test-log-";
                     WithRotationTime (7 * 24 * Hour)] world0)))) = [] /\
  (exists r,
     file_content "/tmp/test-log-2024-03-04.log"
       (fst (Info no_directive (Some 1%positive) context.Background
               "to the file" []
               (fst (New no_directive
                       [WithDriver "file"; WithLogPath "/tmp/test-log-";
                        WithRotationTime (7 * 24 * Hour)] world0)))) = [r] /\
     Message (w_entry r) = "to the file") /\
  New no_directive [WithDriver "file"; WithLogPath "/tmp/%m/"] world0 =
    (fst (New no_directive [WithDriver "file"; WithLogPath "/tmp/%m/"]
            world0),
     Ret (Some 1%positive, None)) /\
  file_content "/tmp/%m/2024-03-07.log"
    (fst (Info no_directive (Some 1%positive) context.Background
            "to the file" []
            (fst (New no_directive
                    [WithDriver "file"; WithLogPath "/tmp/%m/"]
                    world0)))) = [] /\
  (exists r,
     file_content "/tmp/03/2024-03-07.log"
       (fst (Info no_directive (Some 1%positive) context.Background
               "to the file" []
               (fst (New no_directive
                       [WithDriver "file"; WithLogPath "/tmp/%m/"]
                       world0)))) = [r] /\
     Message (w_entry r) = "to the file").
Proof.
  split; [vm_compute; reflexivity|]. split; [reflexivity|].
  split; [vm_compute; reflexivity|].
  split; [eexists; split; vm_compute; reflexivity|].
  split; [vm_compute; reflexivity|].
  split; [vm_compute; reflexivity|].
  eexists; split; vm_compute; reflexivity.
Qed.

(** The file of the day, computed: log path, date, ".log" *)
Example dated_file_example :
  dated_file "/tmp/test-log-" {| year := 2024; month := 3; day := 7 |} =
    "/tmp/test-log-2024-03-07.log".
Proof. reflexivity. Qed.

Lemma C7_invalid_level_panics_witness :
  ~ In "verbose"
      ["debug"; "info"; "warn"; "error"; "dpanic"; "panic"; "fatal"] /\
  WithLevel "verbose" default_option = Panicked "invalid log level" /\
  WithStacktraceLevel "verbose" default_option = Panicked "invalid log level" /\
  New no_directive [WithDriver "file"; WithLevel "verbose"] world0 =
    (world0, Panicked "invalid log level") /\
  exists w1, New no_directive [WithDriver "invalid"] world0 =
    (w1, Ret (None, Some "unknown driver: invalid")).
Proof.
  assert (Hn : ~ In "verbose"
      ["debug"; "info"; "warn"; "error"; "dpanic"; "panic"; "fatal"]).
  { simpl. intros H. repeat destruct H as [H|H]; try discriminate H. exact H. }
  split; [exact Hn|].
  destruct (C7_invalid_level_panics no_directive "verbose" Hn) as (H1 & H2 & H3).
  split; [exact (proj1 (H1 default_option))|].
  split; [exact (proj2 (H1 default_option))|].
  split.
  - exact (proj1 (H2 [WithDriver "file"] [] _ world0 eq_refl)).
  - apply (H3 "invalid" world0); discriminate.
Defined.

Lemma C9_non_string_trace_witness :
  snd (context.assert_string
         (context.Value
            (context.WithValue context.Background
               (context.Str "trace_id") (context.Int 42))
            (context.Str TraceIDKey))) = false /\
  getTraceIDFromContext
    (context.WithValue context.Background
       (context.Str "trace_id") (context.Int 42)) = "" /\
  Info no_directive (Some 1%positive)
    (context.WithValue context.Background
       (context.Str "trace_id") (context.Int 42))
    "hi" [] (fst (New no_directive [] world0)) =
  Info no_directive (Some 1%positive) context.Background
    "hi" [] (fst (New no_directive [] world0)).
Proof.
  split; [reflexivity|].
  destruct (C9_non_string_trace no_directive
              (context.WithValue context.Background
                 (context.Str "trace_id") (context.Int 42)) eq_refl)
    as (H1 & H2 & _).
  split; [exact H1|]. apply H2.
Defined.


Lemma C10_counterexample :
  New no_directive [] world0 =
    (fst (New no_directive [] world0), Ret (Some 1%positive, None)) /\
  exists mg,
    load (Some 1%positive) (fst (New no_directive [] world0)) = Ret mg /\
    Named (Some 1%positive) "" (fst (New no_directive [] world0)) =
      Ret (Zap mg) /\
    With (Some 1%positive) [] (fst (New no_directive [] world0)) =
      Ret (Zap mg).
Proof.
  split; [exact New_default_runs|].
  eexists. split; [vm_compute; reflexivity|].
  split; vm_compute; reflexivity.
Qed.

Lemma C5_json_records_witness :
  exists r,
    New no_directive [] world0 =
      (fst (New no_directive [] world0), Ret (Some 1%positive, None)) /\
    apply_opts [] default_option = Ret default_option /\
    useColor default_option = false /\
    encoderConfig default_option = DefaultEncoderConfig /\
    output_of no_directive Stdout
      (fst (Info no_directive (Some 1%positive) context.Background
              "This is an info message" []
              (run no_directive (Some 1%positive) []
                 (fst (New no_directive [] world0))))) =
      (output_of no_directive Stdout
         (run no_directive (Some 1%positive) []
            (fst (New no_directive [] world0))) ++ [r])%list /\
    json.parse
      (json.EncodeEntry DefaultEncoderConfig (w_entry r) (w_fields r)) =
      Some [("L", json.JString "INFO");
            ("T", json.JString "2024-03-07T10:34:56.789+0100");
            ("C", json.JString "main.go:12");
            ("M", json.JString "This is an info message")].
Proof.
  eexists. split; [exact New_default_runs|].
  split; [reflexivity|]. split; [reflexivity|]. split; [reflexivity|].
  split; [vm_compute; reflexivity|].
  destruct (C5_json_records no_directive [] default_option world0 _ _ []
              InfoLevel context.Background "This is an info message" []
              Stdout _ New_default_runs eq_refl eq_refl eq_refl eq_refl)
    as (_ & obj & Hp & Ho & _).
  refine (eq_trans Hp _). subst obj. vm_compute. reflexivity.
Defined.

(** ** The further properties at concrete inputs *)

Lemma level_names_are_zap_names_witness :
  DebugLevel <= WarnLevel <= FatalLevel /\
  WithLevel "warn" default_option = Ret (set_level WarnLevel default_option) /\
  WithLevel "WARN" default_option = Panicked "invalid log level".
Proof.
  assert (H : DebugLevel <= WarnLevel <= FatalLevel)
    by (unfold DebugLevel, WarnLevel, FatalLevel; lia).
  split; [exact H|].
  destruct (proj1 (level_names_are_zap_names WarnLevel H) default_option)
    as (A & _ & B & _).
  split; [exact A | exact B].
Defined.

Lemma managers_are_independent_witness :
  New no_directive [] world0 =
    (fst (New no_directive [] world0), Ret (Some 1%positive, None)) /\
  New no_directive [WithLevel "error"] (fst (New no_directive [] world0)) =
    (fst (New no_directive [WithLevel "error"]
            (fst (New no_directive [] world0))),
     Ret (Some 2%positive, None)) /\
  threshold (Some 1%positive)
    (run no_directive (Some 2%positive) [OpSetLevel DebugLevel]
       (fst (New no_directive [WithLevel "error"]
               (fst (New no_directive [] world0))))) = Ret InfoLevel.
Proof.
  assert (H2 : New no_directive [WithLevel "error"]
                 (fst (New no_directive [] world0)) =
               (fst (New no_directive [WithLevel "error"]
                       (fst (New no_directive [] world0))),
                Ret (Some 2%positive, None)))
    by (vm_compute; reflexivity).
  split; [exact New_default_runs|]. split; [exact H2|].
  destruct (managers_are_independent no_directive _ _ _ _ _ _ _
              New_default_runs H2) as (_ & opt1 & Ho & H).
  injection Ho as <-.
  exact (proj1 (H [OpSetLevel DebugLevel] InfoLevel context.Background "x" [])).
Defined.

Lemma SetLevel_needs_a_level_cell_witness :
  exists w mg,
    managers w !! 1%positive = Some mg /\ m_level mg = None /\
    c_level (l_core (Zap mg)) = Some 1%positive /\
    cells w !! 1%positive = Some DebugLevel /\
    SetLevel (Some 1%positive) ErrorLevel w = (w, Panicked nil_deref) /\
    (emits no_directive w
       (fst (Info no_directive (Some 1%positive) context.Background "hi" [] w))
     <-> DebugLevel <= InfoLevel).
Proof.
  pose (mg := {| Zap := zap_New
                          (NewCore (JSONEncoder DefaultEncoderConfig) Stdout
                             (Some 1%positive)) 0 Stderr ErrorLevel;
                 m_level := None |}).
  pose (w := fst (alloc_Manager mg (fst (NewAtomicLevelAt DebugLevel world0)))).
  assert (H1 : managers w !! 1%positive = Some mg) by (vm_compute; reflexivity).
  assert (H4 : cells w !! 1%positive = Some DebugLevel)
    by (vm_compute; reflexivity).
  exists w, mg.
  destruct (SetLevel_needs_a_level_cell no_directive 1%positive mg 1%positive
              DebugLevel w H1 eq_refl eq_refl H4) as (A & B & _).
  split; [exact H1|]. split; [reflexivity|]. split; [reflexivity|].
  split; [exact H4|]. split; [exact (A ErrorLevel)|].
  exact (B InfoLevel context.Background "hi" []).
Defined.

Lemma Panic_and_Fatal_always_terminate_witness :
  New no_directive [] world0 =
    (fst (New no_directive [] world0), Ret (Some 1%positive, None)) /\
  snd (Panic no_directive (Some 1%positive) context.Background "boom" []
         (run no_directive (Some 1%positive) [OpSetLevel 6]
            (fst (New no_directive [] world0)))) = Panicked "boom" /\
  snd (Fatal no_directive (Some 1%positive) context.Background "boom" []
         (run no_directive (Some 1%positive) [OpSetLevel 6]
            (fst (New no_directive [] world0)))) = Exited 1 /\
  fst (Fatal no_directive (Some 1%positive) context.Background "boom" []
         (run no_directive (Some 1%positive) [OpSetLevel 6]
            (fst (New no_directive [] world0)))) =
    run no_directive (Some 1%positive) [OpSetLevel 6]
      (fst (New no_directive [] world0)).
Proof.
  split; [exact New_default_runs|].
  destruct (Panic_and_Fatal_always_terminate no_directive [] world0 _ _
              New_default_runs) as (opt & Ho & H).
  destruct (H [OpSetLevel 6] context.Background "boom" [])
    as (A & B & _ & _ & _ & _ & _ & C).
  split; [exact A|]. split; [exact B|].
  apply C. injection Ho as <-. vm_compute. reflexivity.
Defined.

Lemma children_follow_SetLevel_witness :
  New no_directive [] world0 =
    (fst (New no_directive [] world0), Ret (Some 1%positive, None)) /\
  exists child,
    Named (Some 1%positive) "db" (fst (New no_directive [] world0)) =
      Ret child /\
    (emits no_directive
       (run no_directive (Some 1%positive) [OpSetLevel ErrorLevel]
          (fst (New no_directive [] world0)))
       (fst (Logger_log no_directive child InfoLevel "query" []
               (run no_directive (Some 1%positive) [OpSetLevel ErrorLevel]
                  (fst (New no_directive [] world0)))))
     <-> ErrorLevel <= InfoLevel).
Proof.
  split; [exact New_default_runs|].
  assert (Hn : { child | Named (Some 1%positive) "db"
                           (fst (New no_directive [] world0)) = Ret child })
    by (eexists; vm_compute; reflexivity).
  destruct Hn as [child Hn]. exists child. split; [exact Hn|].
  destruct (children_follow_SetLevel no_directive [] world0 _ _
              New_default_runs) as (opt & Ho & H).
  injection Ho as <-.
  exact (H [] [OpSetLevel ErrorLevel] child InfoLevel "query" []
           (or_introl (ex_intro _ "db" Hn))).
Defined.

Lemma child_records_witness :
  New no_directive [] world0 =
    (fst (New no_directive [] world0), Ret (Some 1%positive, None)) /\
  exists named bounded r,
    Named (Some 1%positive) "db"
      (run no_directive (Some 1%positive) []
         (fst (New no_directive [] world0))) = Ret named /\
    With (Some 1%positive) [zap_String "k" "v"]
      (run no_directive (Some 1%positive) []
         (fst (New no_directive [] world0))) = Ret bounded /\
    output_of no_directive Stdout
      (fst (Logger_log no_directive bounded InfoLevel "query"
              [zap_String "n" "1"]
              (run no_directive (Some 1%positive) []
                 (fst (New no_directive [] world0))))) =
      (output_of no_directive Stdout
         (run no_directive (Some 1%positive) []
            (fst (New no_directive [] world0))) ++ [r])%list /\
    w_fields r = [zap_String "k" "v"; zap_String "n" "1"].
Proof.
  split; [exact New_default_runs|].
  assert (Hn : { named | Named (Some 1%positive) "db"
                           (run no_directive (Some 1%positive) []
                              (fst (New no_directive [] world0))) =
                         Ret named })
    by (eexists; vm_compute; reflexivity).
  assert (Hb : { bounded | With (Some 1%positive) [zap_String "k" "v"]
                             (run no_directive (Some 1%positive) []
                                (fst (New no_directive [] world0))) =
                           Ret bounded })
    by (eexists; vm_compute; reflexivity).
  destruct Hn as [named Hn], Hb as [bounded Hb].
  exists named, bounded.
  assert (Hr : { r | output_of no_directive Stdout
      (fst (Logger_log no_directive bounded InfoLevel "query"
              [zap_String "n" "1"]
              (run no_directive (Some 1%positive) []
                 (fst (New no_directive [] world0))))) =
      (output_of no_directive Stdout
         (run no_directive (Some 1%positive) []
            (fst (New no_directive [] world0))) ++ [r])%list }).
  { injection Hb as <-. eexists. vm_compute. reflexivity. }
  destruct Hr as [r Hr]. exists r.
  split; [exact Hn|]. split; [exact Hb|]. split; [exact Hr|].
  exact (proj1 (proj2 (proj1 (proj2
           (child_records no_directive [] world0 _ _ New_default_runs
              [] "db" [zap_String "k" "v"] named bounded InfoLevel "query"
              [zap_String "n" "1"] Stdout r Hn Hb)) Hr))).
Defined.


Lemma trace_id_lookup_witness :
  getTraceIDFromContext
    (context.WithValue
       (context.WithValue context.Background
          (context.Str "trace_id") (context.Str "outer"))
       (context.Str "trace_id") (context.Int 7)) = "" /\
  getTraceIDFromContext
    (context.WithValue
       (context.WithValue context.Background
          (context.Str "trace_id") (context.Str "outer"))
       (context.NamedStr "ctxKey" "trace_id") (context.Str "inner")) =
    "outer".
Proof.
  split.
  - exact (proj1 (proj2 (proj2 (trace_id_lookup
             (context.WithValue context.Background
                (context.Str "trace_id") (context.Str "outer")))))
             (context.Int 7) eq_refl).
  - refine (eq_trans
             (proj2 (proj2 (proj2 (proj2 (trace_id_lookup
                (context.WithValue context.Background
                   (context.Str "trace_id") (context.Str "outer"))))))
                "ctxKey" (context.Str "inner")) _).
    exact (proj1 (proj2 (trace_id_lookup context.Background)) "outer").
Defined.


Lemma options_compose_witness :
  forallb well_named
    [UseLevel "debug"; UseDriver "file"; UseLevel "warn"] = true /\
  apply_opts
    (map option_of [UseLevel "debug"; UseDriver "file"; UseLevel "warn"])
    default_option =
    Ret (set_level WarnLevel (set_driver "file" default_option)) /\
  forallb well_named [UseDriver "file"; UseLevel "loud"] = false /\
  New no_directive (map option_of [UseDriver "file"; UseLevel "loud"]) world0 =
    (world0, Panicked "invalid log level").
Proof.
  split; [reflexivity|].
  split.
  { exact (proj1 (options_compose no_directive
             [UseLevel "debug"; UseDriver "file"; UseLevel "warn"]
             default_option) eq_refl). }
  split; [reflexivity|].
  exact (proj2 (proj2 (options_compose no_directive
           [UseDriver "file"; UseLevel "loud"] default_option) eq_refl)
           world0).
Defined.

Lemma CallerSkip_round_trip_witness :
  exists w1 cs,
    NewCallerSkip (2 ^ 32 + 3) world0 = (w1, Ret cs) /\
    CallerSkip_Load cs w1 = Ret 3 /\
    CallerSkip_Load cs (fst (CallerSkip_Set cs (2 ^ 31) w1)) =
      Ret (- 2 ^ 31).
Proof.
  destruct (CallerSkip_round_trip (2 ^ 32 + 3) world0)
    as (w1 & cs & A & B & _ & C & _).
  exists w1, cs. split; [exact A|]. split; [exact B|].
  exact (proj2 (C (2 ^ 31))).
Defined.

Lemma CallerSkip_is_separate_witness :
  NewCallerSkip 1 world0 =
    (fst (NewCallerSkip 1 world0), Ret {| skip := Some 1%positive |}) /\
  NewCallerSkip 2 (fst (NewCallerSkip 1 world0)) =
    (fst (NewCallerSkip 2 (fst (NewCallerSkip 1 world0))),
     Ret {| skip := Some 2%positive |}) /\
  CallerSkip_Load {| skip := Some 1%positive |}
    (fst (CallerSkip_Set {| skip := Some 2%positive |} 9
            (fst (NewCallerSkip 2 (fst (NewCallerSkip 1 world0)))))) =
    Ret 1.
Proof.
  assert (H1 : NewCallerSkip 1 world0 =
                 (fst (NewCallerSkip 1 world0),
                  Ret {| skip := Some 1%positive |}))
    by (vm_compute; reflexivity).
  assert (H2 : NewCallerSkip 2 (fst (NewCallerSkip 1 world0)) =
                 (fst (NewCallerSkip 2 (fst (NewCallerSkip 1 world0))),
                  Ret {| skip := Some 2%positive |}))
    by (vm_compute; reflexivity).
  split; [exact H1|]. split; [exact H2|].
  exact (proj1 (proj2 (proj2 (CallerSkip_is_separate 1 2 world0 _ _ _ _
                                H1 H2) 9))).
Defined.

Lemma v1_stdout_split_witness :
  exists m r,
    v1_New no_directive [] = (Some m, None) /\
    v1_driver (v1_apply_opts []) = "stdout" /\
    stderr (fst (v1_leveled no_directive ErrorLevel m context.Background
                   "failed" [] world0)) = [r] /\
    stdout (fst (v1_leveled no_directive ErrorLevel m context.Background
                   "failed" [] world0)) = [] /\
    Message (w_entry r) = "failed".
Proof.
  eexists _, _.
  split; [vm_compute; reflexivity|]. split; [reflexivity|].
  destruct (proj2 (proj2 (proj2
             (v1_stdout_split no_directive [] _
                ltac:(vm_compute; reflexivity) eq_refl
                ErrorLevel context.Background "failed" [] world0)))
             ltac:(vm_compute; discriminate) ltac:(vm_compute; discriminate))
    as (A & B).
  split; [exact A|]. split; [exact B | reflexivity].
Defined.

Lemma v1_unknown_driver_is_silent_witness :
  v1_driver (v1_apply_opts [v1_WithDriver "syslog"]) <> "stdout" /\
  v1_driver (v1_apply_opts [v1_WithDriver "syslog"]) <> "file" /\
  exists m,
    v1_New no_directive [v1_WithDriver "syslog"] = (Some m, None) /\
    fst (v1_leveled no_directive ErrorLevel m context.Background
           "failed" [] world0) = world0.
Proof.
  assert (H1 : v1_driver (v1_apply_opts [v1_WithDriver "syslog"]) <> "stdout")
    by (vm_compute; discriminate).
  assert (H2 : v1_driver (v1_apply_opts [v1_WithDriver "syslog"]) <> "file")
    by (vm_compute; discriminate).
  split; [exact H1|]. split; [exact H2|].
  destruct (v1_unknown_driver_is_silent no_directive
              [v1_WithDriver "syslog"] H1 H2) as (m & A & B).
  exists m. split; [exact A|].
  exact (B ErrorLevel context.Background "failed" [] world0).
Defined.

Lemma v1_file_driver_witness :
  v1_driver (v1_apply_opts [v1_WithDriver "file"; v1_WithLogPath "/tmp/app-"])
    = "file" /\
  literal "/tmp/app-" = true /\
  exists m,
    v1_New no_directive [v1_WithDriver "file"; v1_WithLogPath "/tmp/app-"] =
      (Some m, None) /\
    exists r,
      file_content "/tmp/app-2024-03-07.log"
        (fst (v1_leveled no_directive ErrorLevel m context.Background
                "failed" [] world0)) =
        (file_content "/tmp/app-2024-03-07.log" world0 ++ [r])%list /\
      Message (w_entry r) = "failed".
Proof.
  split; [reflexivity|]. split; [reflexivity|].
  destruct (proj1 (v1_file_driver no_directive
                     [v1_WithDriver "file"; v1_WithLogPath "/tmp/app-"]
                     eq_refl) eq_refl) as (m & A & B).
  exists m. split; [exact A|].
  destruct (B ErrorLevel context.Background "failed" [] world0)
    as (_ & _ & _ & C).
  destruct (C ltac:(vm_compute; discriminate)) as (r & D & _ & E & _).
  exists r. split; [exact D | exact E].
Defined.

Lemma v1_WithLevel_defaults_to_Info_witness :
  ~ In "panic" ["debug"; "error"; "warn"; "fatal"] /\
  v1_level (v1_WithLevel "panic" v1_default_option) = InfoLevel /\
  WithLevel "panic" default_option =
    Ret (set_level PanicLevel default_option).
Proof.
  assert (H : ~ In "panic" ["debug"; "error"; "warn"; "fatal"]).
  { simpl. intros [E|[E|[E|[E|[]]]]]; discriminate E. }
  split; [exact H|].
  destruct (v1_WithLevel_defaults_to_Info "panic" v1_default_option H)
    as (A & B).
  split.
  - exact (f_equal v1_level A).
  - exact (proj1 (proj2 (proj2 (B default_option)))).
Defined.

Lemma Sync_reports_the_sink_witness :
  New no_directive [] world0 =
    (fst (New no_directive [] world0), Ret (Some 1%positive, None)) /\
  Sync (Some 1%positive) (fun _ => Some "sync /dev/stdout: invalid argument")
    (run no_directive (Some 1%positive) []
       (fst (New no_directive [] world0))) =
    Ret (Some "sync /dev/stdout: invalid argument").
Proof.
  split; [exact New_default_runs|].
  exact (proj1 (proj2
           (Sync_reports_the_sink no_directive [] default_option world0 _ _
              New_default_runs eq_refl []
              (fun _ => Some "sync /dev/stdout: invalid argument")))
           eq_refl).
Defined.

Lemma trace_id_reads_back_witness :
  New no_directive [] world0 =
    (fst (New no_directive [] world0), Ret (Some 1%positive, None)) /\
  exists r obj,
    output_of no_directive Stdout
      (fst (Info no_directive (Some 1%positive)
              (context.WithValue context.Background
                 (context.Str "trace_id") (context.Str "abc123"))
              "This is an info message" []
              (run no_directive (Some 1%positive) []
                 (fst (New no_directive [] world0))))) =
      (output_of no_directive Stdout
         (run no_directive (Some 1%positive) []
            (fst (New no_directive [] world0))) ++ [r])%list /\
    json.parse
      (json.EncodeEntry DefaultEncoderConfig (w_entry r) (w_fields r)) =
      Some obj /\
    json.get "TraceID" obj = Some (json.JString "abc123") /\
    json.get "M" obj = Some (json.JString "This is an info message").
Proof.
  split; [exact New_default_runs|].
  assert (Hr : { r | output_of no_directive Stdout
      (fst (Info no_directive (Some 1%positive)
              (context.WithValue context.Background
                 (context.Str "trace_id") (context.Str "abc123"))
              "This is an info message" []
              (run no_directive (Some 1%positive) []
                 (fst (New no_directive [] world0))))) =
      (output_of no_directive Stdout
         (run no_directive (Some 1%positive) []
            (fst (New no_directive [] world0))) ++ [r])%list })
    by (eexists; vm_compute; reflexivity).
  destruct Hr as [r Hr]. exists r.
  assert (Hc : carries_trace
      (context.WithValue context.Background
         (context.Str "trace_id") (context.Str "abc123")) "abc123")
    by (split; [reflexivity | discriminate]).
  destruct (trace_id_reads_back no_directive [] default_option world0 _ _ []
              InfoLevel _ "abc123" "This is an info message" [] Stdout r
              New_default_runs eq_refl eq_refl eq_refl Hc eq_refl eq_refl
              ltac:(intros f []) Hr) as (obj & A & B & C).
  exists obj. split; [exact Hr|]. split; [exact A|].
  split; [exact B | exact C].
Defined.

Lemma New_disturbs_nothing_witness :
  New no_directive [WithDriver "syslog"] world0 =
    (fst (New no_directive [WithDriver "syslog"] world0),
     Ret (None, Some "unknown driver: syslog")) /\
  stdout (fst (New no_directive [WithDriver "syslog"] world0)) =
    stdout world0 /\
  managers (fst (New no_directive [WithDriver "syslog"] world0)) =
    managers world0.
Proof.
  assert (H : New no_directive [WithDriver "syslog"] world0 =
                (fst (New no_directive [WithDriver "syslog"] world0),
                 Ret (None, Some "unknown driver: syslog")))
    by (vm_compute; reflexivity).
  split; [exact H|].
  destruct (New_disturbs_nothing no_directive _ _ _ _ H)
    as (A & _ & _ & _ & _ & _ & _ & _ & B).
  split; [exact A|].
  exact (proj2 (B None "unknown driver: syslog" eq_refl)).
Defined.

Lemma SetLevel_composes_witness :
  New no_directive [] world0 =
    (fst (New no_directive [] world0), Ret (Some 1%positive, None)) /\
  fst (SetLevel (Some 1%positive) ErrorLevel
         (fst (SetLevel (Some 1%positive) DebugLevel
                 (run no_directive (Some 1%positive) []
                    (fst (New no_directive [] world0)))))) =
    fst (SetLevel (Some 1%positive) ErrorLevel
           (run no_directive (Some 1%positive) []
              (fst (New no_directive [] world0)))) /\
  fst (SetLevel (Some 1%positive) InfoLevel
         (run no_directive (Some 1%positive) []
            (fst (New no_directive [] world0)))) =
    run no_directive (Some 1%positive) [] (fst (New no_directive [] world0)).
Proof.
  split; [exact New_default_runs|].
  split.
  - exact (proj1 (proj2 (proj2 (proj2 (proj2 (proj2
             (SetLevel_composes no_directive [] world0 _ _ New_default_runs
                [] DebugLevel ErrorLevel))))))).
  - apply (proj2 (proj2 (proj2 (proj2 (proj2 (proj2
             (SetLevel_composes no_directive [] world0 _ _ New_default_runs
                [] InfoLevel ErrorLevel))))))).
    vm_compute. reflexivity.
Defined.
